(** * sing-box-windows: the application entry point [src/main.ts]

    The module body of [main.ts] and the closures it creates are embedded
    as programs of a small state-and-exception monad.  The collaborators
    the entry point calls (Vue, the stores, the memory and performance
    utilities, the browser) are outside this file: their behaviour is a
    parameter [env], and every interaction with them is recorded, with its
    outcome, in a trace. *)

From stdpp Require Import base gmap strings list pretty.

Open Scope Z_scope.

(** ** Values *)

(** Functions created by [main.ts], named by the place that creates them. *)
Inductive closure :=
| UnloadHandler      (* the 'beforeunload' listener, line 36 *)
| CheckMemory        (* debugMemory.checkMemory, line 78 *)
| GetStats           (* debugMemory.getStats, line 79 *)
| CleanupAll         (* debugMemory.cleanupAll, line 80 *)
| ErrorHandler       (* app.config.errorHandler, line 130 *)
| ConsoleError.      (* console.error passed to .catch, line 95 *)

(** The performance singletons imported on lines 13-15. *)
Inductive tool :=
| MemoryMonitor | BundleAnalyzer | CodeSplittingManager
| ComponentPreloader | EventListenerManager.

(** JavaScript values, as far as the entry point handles them.  Objects
    are references: two object literals with the same fields are different
    values. *)
Inductive value :=
| VUndefined
| VString (s : string)
| VNumber (n : Z)
| VClosure (f : closure)
| VObject (loc : nat)         (* an object literal allocated by main.ts *)
| VTool (t : tool)
| VPromise (p : nat)
| VTypeError (msg : string)
| VForeign (n : nat).         (* any other value the environment produces *)

Global Instance closure_eq_dec : EqDecision closure.
Proof. solve_decision. Defined.
Global Instance tool_eq_dec : EqDecision tool.
Proof. solve_decision. Defined.
Global Instance value_eq_dec : EqDecision value.
Proof. solve_decision. Defined.

(** The fields of an object literal, in source order. *)
Definition object := list (string * value).

(** ** Interactions with the collaborators *)

(** Every method the entry point (or one of its closures) calls. *)
Inductive call :=
| CreateApp                                (* createApp(App) *)
| UsePinia                                 (* usePinia(app) *)
| AppUse (plugin : string)                 (* app.use(router), app.use(i18n) *)
| StoreManagerInitialize                   (* storeManager.initialize() *)
| LeakStartMonitoring (ms : Z)             (* memoryLeakDetector.startMonitoring *)
| LeakStopMonitoring                       (* memoryLeakDetector.stopMonitoring *)
| LeakForceCheck                           (* memoryLeakDetector.forceCheck *)
| LeakGetMemoryStats                       (* memoryLeakDetector.getMemoryStats *)
| WsCleanerCleanupAll                      (* webSocketCleaner.cleanupAll *)
| StoreCleanerCleanupAll                   (* StoreCleaner.cleanupAll *)
| WsServiceDestroyInstance                 (* WebSocketService.destroyInstance *)
| MemOptGetInstance                        (* MemoryOptimizer.getInstance *)
| MemOptCleanup                            (* (that instance).cleanup *)
| MemMonStartMonitoring (ms : Z)           (* memoryMonitor.startMonitoring *)
| MemMonStopMonitoring                     (* memoryMonitor.stopMonitoring *)
| PreloadComponent (name : string)         (* componentPreloader.preloadComponent *)
| PreloaderDestroy                         (* componentPreloader.destroy *)
| ListenerManagerCleanup                   (* eventListenerManager.cleanup *)
| CodeSplittingCleanup                     (* codeSplittingManager.cleanup *)
| BundlePrintReport                        (* bundleAnalyzer.printReport *)
| AppMount (selector : string).            (* app.mount('#app') *)

(** The two modules loaded with [import()] inside the unload handler. *)
Inductive module_path :=
| WebsocketServiceModule      (* '@/services/websocket-service' *)
| MemoryOptimizationModule.   (* '@/utils/memory-optimization' *)

Global Instance call_eq_dec : EqDecision call.
Proof. solve_decision. Defined.
Global Instance module_path_eq_dec : EqDecision module_path.
Proof. solve_decision. Defined.

(** How a call (or an awaited import) ends. *)
Inductive outcome :=
| Returns (v : value)
| Throws (e : value).

Global Instance outcome_eq_dec : EqDecision outcome.
Proof. solve_decision. Defined.

Inductive event :=
| ECall (c : call) (o : outcome)
| EImport (m : module_path) (o : outcome)   (* await import(m): resolved or rejected *)
| EConsoleLog (args : list value)
| EConsoleError (args : list value)
| EAddEventListener (type : string) (f : closure)
| EWindowAssign (name : string)             (* window.name = ... *)
| EWindowDefine (name : string)             (* Object.defineProperty(window, name, ...) *)
| EUnhandledRejection (reason : value).

Global Instance event_eq_dec : EqDecision event.
Proof. solve_decision. Defined.

(** A navigation-timing entry: the eight fields lines 114-126 read.  The
    timestamps are JavaScript numbers; their type, subtraction and
    [toFixed] are taken as an interface. *)
Class Timestamp (num : Type) := {
  num_sub : num → num → num;
  to_fixed : num → nat → string
}.

Record navigation_timing (num : Type) := {
  domContentLoadedEventStart : num;
  domContentLoadedEventEnd : num;
  loadEventStart : num;
  loadEventEnd : num;
  domainLookupStart : num;
  domainLookupEnd : num;
  connectStart : num;
  connectEnd : num
}.
Arguments domContentLoadedEventStart {num} _.
Arguments domContentLoadedEventEnd {num} _.
Arguments loadEventStart {num} _.
Arguments loadEventEnd {num} _.
Arguments domainLookupStart {num} _.
Arguments domainLookupEnd {num} _.
Arguments connectStart {num} _.
Arguments connectEnd {num} _.

(** The environment: what each collaborator does when called.  The answer
    may depend on everything that happened before (the trace so far), so a
    collaborator with internal state, such as a leak detector that is or is
    not running, is covered. *)
Record env (num : Type) := {
  call_result : call → list event → outcome;
  import_result : module_path → list event → outcome;
  navigation_entries : list (navigation_timing num)
}.
Arguments call_result {num} _ _ _.
Arguments import_result {num} _ _ _.
Arguments navigation_entries {num} _.

(** ** Properties of the window object *)

Record property := {
  prop_value : value;
  prop_writable : bool;
  prop_enumerable : bool;
  prop_configurable : bool
}.

(** The attributes argument of [Object.defineProperty]: absent fields are
    [None]. *)
Record descriptor := {
  desc_value : option value;
  desc_writable : option bool;
  desc_enumerable : option bool;
  desc_configurable : option bool
}.

Definition changes {A} `{EqDecision A} (field : option A) (current : A) : bool :=
  match field with
  | Some x => negb (bool_decide (x = current))
  | None => false
  end.

Definition apply_descriptor (p : property) (d : descriptor) : property :=
  {| prop_value := default (prop_value p) (desc_value d);
     prop_writable := default (prop_writable p) (desc_writable d);
     prop_enumerable := default (prop_enumerable p) (desc_enumerable d);
     prop_configurable := default (prop_configurable p) (desc_configurable d) |}.

(** ECMAScript's ValidateAndApplyPropertyDescriptor for data properties of
    an extensible object: [None] when the definition is rejected. *)
Definition validate_and_apply (current : option property) (d : descriptor)
  : option property :=
  match current with
  | None =>
      Some {| prop_value := default VUndefined (desc_value d);
              prop_writable := default false (desc_writable d);
              prop_enumerable := default false (desc_enumerable d);
              prop_configurable := default false (desc_configurable d) |}
  | Some p =>
      if prop_configurable p then Some (apply_descriptor p d)
      else if changes (desc_configurable d) false then None
      else if changes (desc_enumerable d) (prop_enumerable p) then None
      else if prop_writable p then Some (apply_descriptor p d)
      else if changes (desc_writable d) false then None
      else if changes (desc_value d) (prop_value p) then None
      else Some (apply_descriptor p d)
  end.

(** [Object.defineProperty(window, name, d)]: the new window, or [None]
    when a TypeError is thrown. *)
Definition define_property (name : string) (d : descriptor)
    (w : gmap string property) : option (gmap string property) :=
  match validate_and_apply (w !! name) d with
  | Some p => Some (<[name := p]> w)
  | None => None
  end.

(** [window.name = v] in strict code (modules are strict): [None] when a
    TypeError is thrown. *)
Definition assign_property (name : string) (v : value)
    (w : gmap string property) : option (gmap string property) :=
  match w !! name with
  | None =>
      Some (<[name := {| prop_value := v; prop_writable := true;
                         prop_enumerable := true; prop_configurable := true |}]> w)
  | Some p =>
      if prop_writable p
      then Some (<[name := apply_descriptor p
                    {| desc_value := Some v; desc_writable := None;
                       desc_enumerable := None; desc_configurable := None |}]> w)
      else None
  end.

(** [delete window.name]: [None] when refused. *)
Definition delete_property (name : string) (w : gmap string property)
  : option (gmap string property) :=
  match w !! name with
  | None => Some w
  | Some p => if prop_configurable p then Some (delete name w) else None
  end.

(** ** Program state *)

Record state := {
  trace : list event;                        (* everything observed so far *)
  heap : list object;                        (* object literals, by allocation order *)
  window : gmap string property;             (* own properties of window *)
  listeners : list (string * closure);       (* window.addEventListener *)
  error_handler : option closure;            (* app.config.errorHandler *)
  global_properties : list (string * value); (* app.config.globalProperties *)
  reactions : list (nat * closure)           (* promise.catch(f) registrations *)
}.

Definition set_trace (t : list event) (st : state) : state :=
  {| trace := t; heap := heap st; window := window st;
     listeners := listeners st; error_handler := error_handler st;
     global_properties := global_properties st; reactions := reactions st |}.
Definition set_heap (h : list object) (st : state) : state :=
  {| trace := trace st; heap := h; window := window st;
     listeners := listeners st; error_handler := error_handler st;
     global_properties := global_properties st; reactions := reactions st |}.
Definition set_window (w : gmap string property) (st : state) : state :=
  {| trace := trace st; heap := heap st; window := w;
     listeners := listeners st; error_handler := error_handler st;
     global_properties := global_properties st; reactions := reactions st |}.
Definition set_listeners (l : list (string * closure)) (st : state) : state :=
  {| trace := trace st; heap := heap st; window := window st;
     listeners := l; error_handler := error_handler st;
     global_properties := global_properties st; reactions := reactions st |}.
Definition set_error_handler (h : option closure) (st : state) : state :=
  {| trace := trace st; heap := heap st; window := window st;
     listeners := listeners st; error_handler := h;
     global_properties := global_properties st; reactions := reactions st |}.
Definition set_global_properties (g : list (string * value)) (st : state) : state :=
  {| trace := trace st; heap := heap st; window := window st;
     listeners := listeners st; error_handler := error_handler st;
     global_properties := g; reactions := reactions st |}.
Definition set_reactions (r : list (nat * closure)) (st : state) : state :=
  {| trace := trace st; heap := heap st; window := window st;
     listeners := listeners st; error_handler := error_handler st;
     global_properties := global_properties st; reactions := r |}.

(** A page on which nothing has happened yet. *)
Definition fresh_page : state :=
  {| trace := []; heap := []; window := ∅; listeners := [];
     error_handler := None; global_properties := []; reactions := [] |}.

(** ** The monad of statements *)

(** A statement completes normally with a value or abruptly with a thrown
    value; either way it leaves a state. *)
Inductive completion (A : Type) :=
| Normal (a : A)
| Thrown (e : value).
Arguments Normal {A} _.
Arguments Thrown {A} _.

Definition M (A : Type) : Type := state → completion A * state.

Definition ret {A} (a : A) : M A := λ st, (Normal a, st).
Definition throw {A} (e : value) : M A := λ st, (Thrown e, st).
Definition bind {A B} (m : M A) (k : A → M B) : M B :=
  λ st, match m st with
        | (Normal a, st') => k a st'
        | (Thrown e, st') => (Thrown e, st')
        end.

(** [try { body } catch (error) { handler error }] *)
Definition try_catch {A} (body : M A) (handler : value → M A) : M A :=
  λ st, match body st with
        | (Normal a, st') => (Normal a, st')
        | (Thrown e, st') => handler e st'
        end.

Declare Scope js_scope.
Delimit Scope js_scope with js.
Notation "x <- m ;; k" := (bind m (λ x, k))
  (at level 100, m at next level, right associativity) : js_scope.
Notation "m ;; k" := (bind m (λ _, k))
  (at level 100, right associativity) : js_scope.
Open Scope js_scope.

(** [if (b) { body }] *)
Definition when (b : bool) (body : M unit) : M unit :=
  if b then body else ret tt.

Definition emit (ev : event) : M unit :=
  λ st, (Normal tt, set_trace (trace st ++ [ev]) st).

Definition console_log (args : list value) : M unit := emit (EConsoleLog args).
Definition console_error (args : list value) : M unit := emit (EConsoleError args).

Section Primitives.
Context {num : Type} (E : env num).

(** Call a collaborator: the environment decides the outcome from what
    has happened so far, and the call is recorded with it. *)
Definition invoke (c : call) : M value :=
  λ st, let o := call_result E c (trace st) in
        let st' := set_trace (trace st ++ [ECall c o]) st in
        match o with
        | Returns v => (Normal v, st')
        | Throws e => (Thrown e, st')
        end.

(** [await import(m)]: the statements after it run once the import has
    settled; a rejection is thrown at the await. *)
Definition await_import (m : module_path) : M value :=
  λ st, let o := import_result E m (trace st) in
        let st' := set_trace (trace st ++ [EImport m o]) st in
        match o with
        | Returns v => (Normal v, st')
        | Throws e => (Thrown e, st')
        end.
End Primitives.

(** An object literal: a new object on the heap. *)
Definition alloc (fields : object) : M value :=
  λ st, (Normal (VObject (length (heap st))), set_heap (heap st ++ [fields]) st).

(** [window.name = v] *)
Definition window_assign (name : string) (v : value) : M unit :=
  λ st, let st' := set_trace (trace st ++ [EWindowAssign name]) st in
        match assign_property name v (window st) with
        | Some w => (Normal tt, set_window w st')
        | None => (Thrown (VTypeError "Cannot assign to read only property"), st')
        end.

(** [Object.defineProperty(window, name, d)] *)
Definition window_define (name : string) (d : descriptor) : M unit :=
  λ st, let st' := set_trace (trace st ++ [EWindowDefine name]) st in
        match define_property name d (window st) with
        | Some w => (Normal tt, set_window w st')
        | None => (Thrown (VTypeError "Cannot redefine property"), st')
        end.

(** [window.addEventListener(type, f)] *)
Definition add_event_listener (type : string) (f : closure) : M unit :=
  λ st, (Normal tt,
         set_listeners (listeners st ++ [(type, f)])
           (set_trace (trace st ++ [EAddEventListener type f]) st)).

(** [app.config.errorHandler = f] *)
Definition install_error_handler (f : closure) : M unit :=
  λ st, (Normal tt, set_error_handler (Some f) st).

(** [app.config.globalProperties.name = v] *)
Definition set_global_property (name : string) (v : value) : M unit :=
  λ st, (Normal tt, set_global_properties (global_properties st ++ [(name, v)]) st).

(** [v.catch(f)]: registers [f] for the rejection of promise [v]; the
    promise it returns is dropped by the caller.  On anything that is not
    a promise the method is missing. *)
Definition promise_catch (v : value) (f : closure) : M unit :=
  match v with
  | VPromise p => λ st, (Normal tt, set_reactions (reactions st ++ [(p, f)]) st)
  | _ => throw (VTypeError "catch is not a function")
  end.

(** ** The closures and the module body of [main.ts] *)

(** The two places where the async unload handler waits. *)
Inductive suspension :=
| AwaitingWebsocketService      (* line 41: await import('@/services/websocket-service') *)
| AwaitingMemoryOptimization.   (* line 58: await import('@/utils/memory-optimization') *)

Global Instance suspension_eq_dec : EqDecision suspension.
Proof. solve_decision. Defined.

(** What happens on the page once the module body has run. *)
Inductive page_event :=
| Fired (type : string)            (* the page dispatches an event *)
| Resumed (i : nat)                (* the import the i-th waiting handler awaits has settled *)
| Settled (p : nat) (o : outcome). (* promise p settles *)

Section Program.
Context {num : Type} `{Timestamp num} (E : env num).
(** [import.meta.env.DEV], fixed by the build; [PROD] is its negation. *)
Context (DEV : bool).

(** Line 32: [const isDev = import.meta.env.DEV]. *)
Definition isDev : bool := DEV.
Definition PROD : bool := negb DEV.

(** Lines 36-72: the body of the async 'beforeunload' listener, taken as
    one thread of control and run to its end: each [await] is a statement
    that completes with the outcome of the import.  Where the handler
    gives the control back to the page is the matter of
    [unload_handler_entry] and [unload_handler_resume] below. *)
Definition unload_handler : M unit :=
  console_log [VString "🧹 应用关闭，执行清理..."] ;;
  try_catch
    (await_import E WebsocketServiceModule ;;
     invoke E WsServiceDestroyInstance ;;
     ret tt)
    (λ error, console_error [VString "WebSocketService清理失败:"; error]) ;;
  invoke E LeakStopMonitoring ;;
  invoke E WsCleanerCleanupAll ;;
  invoke E StoreCleanerCleanupAll ;;
  try_catch
    (await_import E MemoryOptimizationModule ;;
     invoke E MemOptGetInstance ;;
     invoke E MemOptCleanup ;;
     ret tt)
    (λ error, console_error [VString "内存优化器清理失败:"; error]) ;;
  when isDev
    (invoke E MemMonStopMonitoring ;;
     invoke E PreloaderDestroy ;;
     invoke E ListenerManagerCleanup ;;
     invoke E CodeSplittingCleanup ;;
     invoke E BundlePrintReport ;;
     ret tt).

(** The same handler as the page runs it, in the three stretches its two
    [await]s cut it into.  Lines 37-41: from the call to the first
    [await].  The import of line 41 is started here and the function
    returns its promise to the caller; the trace records the import when
    it settles. *)
Definition unload_handler_entry : M suspension :=
  console_log [VString "🧹 应用关闭，执行清理..."] ;;
  ret AwaitingWebsocketService.

(** From an [await] whose import has settled to the next [await]
    ([Some]), or to the end of the handler ([None]): lines 41-58 and
    lines 58-71. *)
Definition unload_handler_resume (waiting : suspension) : M (option suspension) :=
  match waiting with
  | AwaitingWebsocketService =>
      try_catch
        (await_import E WebsocketServiceModule ;;
         invoke E WsServiceDestroyInstance ;;
         ret tt)
        (λ error, console_error [VString "WebSocketService清理失败:"; error]) ;;
      invoke E LeakStopMonitoring ;;
      invoke E WsCleanerCleanupAll ;;
      invoke E StoreCleanerCleanupAll ;;
      ret (Some AwaitingMemoryOptimization)
  | AwaitingMemoryOptimization =>
      try_catch
        (await_import E MemoryOptimizationModule ;;
         invoke E MemOptGetInstance ;;
         invoke E MemOptCleanup ;;
         ret tt)
        (λ error, console_error [VString "内存优化器清理失败:"; error]) ;;
      when isDev
        (invoke E MemMonStopMonitoring ;;
         invoke E PreloaderDestroy ;;
         invoke E ListenerManagerCleanup ;;
         invoke E CodeSplittingCleanup ;;
         invoke E BundlePrintReport ;;
         ret tt) ;;
      ret None
  end.

(** Lines 130-140: [(err, instance, info) => ...]. *)
Definition error_handler_body (err instance info : value) : M unit :=
  console_error [VString "Vue应用错误:"; err] ;;
  console_error [VString "错误信息:"; info] ;;
  console_error [VString "组件实例:"; instance] ;;
  when PROD (ret tt).

(** Calling one of the functions [main.ts] creates. *)
Definition call_closure (f : closure) (args : list value) : M value :=
  match f with
  | UnloadHandler => unload_handler ;; ret VUndefined
  | CheckMemory => invoke E LeakForceCheck
  | GetStats => invoke E LeakGetMemoryStats
  | CleanupAll =>
      invoke E WsCleanerCleanupAll ;;
      invoke E StoreCleanerCleanupAll ;;
      ret VUndefined
  | ErrorHandler =>
      error_handler_body (nth 0 args VUndefined) (nth 1 args VUndefined)
                         (nth 2 args VUndefined) ;;
      ret VUndefined
  | ConsoleError => console_error args ;; ret VUndefined
  end.

(** Lines 111-127: the navigation-timing report. *)
Definition performance_report : M unit :=
  match head (navigation_entries E) with
  | Some navigationEntry =>
      let domContentLoaded :=
        num_sub (domContentLoadedEventEnd navigationEntry)
                (domContentLoadedEventStart navigationEntry) in
      let loadComplete :=
        num_sub (loadEventEnd navigationEntry) (loadEventStart navigationEntry) in
      console_log [VString "⚡ 应用性能指标:"] ;;
      console_log [VString ("- DOMContentLoaded: " +:+ to_fixed domContentLoaded 2 +:+ "ms")] ;;
      console_log [VString ("- Load Complete: " +:+ to_fixed loadComplete 2 +:+ "ms")] ;;
      console_log [VString ("- DNS Lookup: " +:+
        to_fixed (num_sub (domainLookupEnd navigationEntry)
                          (domainLookupStart navigationEntry)) 2 +:+ "ms")] ;;
      console_log [VString ("- TCP Connect: " +:+
        to_fixed (num_sub (connectEnd navigationEntry)
                          (connectStart navigationEntry)) 2 +:+ "ms")]
  | None => ret tt
  end.

(** The five references of the object literals on lines 144 and 153. *)
Definition tool_references : object :=
  [("memoryMonitor", VTool MemoryMonitor);
   ("bundleAnalyzer", VTool BundleAnalyzer);
   ("codeSplittingManager", VTool CodeSplittingManager);
   ("componentPreloader", VTool ComponentPreloader);
   ("eventListenerManager", VTool EventListenerManager)].

(** Lines 77-84: the object literal assigned to [window.debugMemory]. *)
Definition debug_memory_object : object :=
  [("checkMemory", VClosure CheckMemory);
   ("getStats", VClosure GetStats);
   ("cleanupAll", VClosure CleanupAll)].

(** Lines 161-165: the attributes given for [__PERF_TOOLS__]. *)
Definition perf_tools_descriptor (performanceTools : value) : descriptor :=
  {| desc_value := Some performanceTools;
     desc_writable := Some false;
     desc_enumerable := None;
     desc_configurable := Some false |}.

(** Lines 17-168: the module body, top to bottom. *)
Definition main : M unit :=
  invoke E CreateApp ;;
  invoke E UsePinia ;;
  invoke E (AppUse "router") ;;
  invoke E (AppUse "i18n") ;;
  invoke E StoreManagerInitialize ;;
  invoke E (LeakStartMonitoring (if isDev then 15000 else 30000)) ;;
  add_event_listener "beforeunload" UnloadHandler ;;
  when isDev
    (debugMemory <- alloc debug_memory_object ;;
     window_assign "debugMemory" debugMemory) ;;
  when DEV
    (console_log [VString "🚀 开发环境性能优化工具已启用"] ;;
     invoke E (MemMonStartMonitoring 15000) ;;
     (preloading <- invoke E (PreloadComponent "HomeView") ;;
      promise_catch preloading ConsoleError) ;;
     console_log [VString "📊 性能监控工具状态:"] ;;
     console_log [VString "- 内存泄露检测: 已启动"] ;;
     console_log [VString "- 内存监控: 已启动"] ;;
     console_log [VString "- 组件预加载器: 已启动"] ;;
     console_log [VString "- Bundle分析器: 已启动"] ;;
     console_log [VString "- 代码分割管理器: 已启动"] ;;
     console_log [VString "- 事件监听器管理: 已启动"]) ;;
  invoke E (AppMount "#app") ;;
  performance_report ;;
  install_error_handler ErrorHandler ;;
  when DEV
    (performance <- alloc tool_references ;;
     set_global_property "$performance" performance ;;
     performanceTools <- alloc tool_references ;;
     window_define "__PERF_TOOLS__" (perf_tools_descriptor performanceTools) ;;
     console_log [VString "🔧 性能工具已挂载到 window.__PERF_TOOLS__"]).

(** *** What the browser does with what [main.ts] registered *)

(** A promise reaction is called by the event loop: what it throws goes
    nowhere but the unhandled-rejection report. *)
Definition run_callback (f : closure) (args : list value) : M unit :=
  try_catch (call_closure f args ;; ret tt)
            (λ e, emit (EUnhandledRejection e)).

Fixpoint run_callbacks (fs : list closure) (args : list value) : M unit :=
  match fs with
  | [] => ret tt
  | f :: fs' => run_callback f args ;; run_callbacks fs' args
  end.

(** The dispatcher calls a listener.  The async unload handler runs to
    its first [await] and returns a promise, which the dispatcher drops:
    the handler is left waiting.  Any other function of [main.ts] is an
    ordinary function and runs to its end; what it throws is reported
    (recorded like a rejection) and does not stop the dispatch. *)
Definition call_listener (f : closure) : M (list suspension) :=
  match f with
  | UnloadHandler => waiting <- unload_handler_entry ;; ret [waiting]
  | _ => run_callback f [] ;; ret []
  end.

Fixpoint call_listeners (fs : list closure) : M (list suspension) :=
  match fs with
  | [] => ret []
  | f :: fs' =>
      started <- call_listener f ;;
      others <- call_listeners fs' ;;
      ret (started ++ others)
  end.

(** The page fires an event of the given type: the listeners registered
    for it are called in the order of their registration.  The dispatch
    returns with the handlers it left waiting. *)
Definition fire (type : string) : M (list suspension) :=
  λ st, call_listeners
          (map snd (filter (λ l, bool_decide (fst l = type)) (listeners st)))
          st.

(** A waiting handler goes on once its import has settled.  What it
    throws rejects the promise the dispatcher dropped: an unhandled
    rejection, and the end of that handler. *)
Definition resume (waiting : suspension) : M (option suspension) :=
  try_catch (unload_handler_resume waiting)
            (λ e, emit (EUnhandledRejection e) ;; ret None).

(** A promise settles.  Fulfilment skips the [.catch] reactions; a
    rejection runs them with the reason, or is reported as unhandled
    when there is none. *)
Definition settle_promise (p : nat) (o : outcome) : M unit :=
  match o with
  | Returns _ => ret tt
  | Throws reason =>
      λ st,
        match map snd (filter (λ r, bool_decide (fst r = p)) (reactions st)) with
        | [] => emit (EUnhandledRejection reason) st
        | fs => run_callbacks fs [reason] st
        end
  end.

(** A history of the page after startup, with the handlers that are
    waiting.  Handlers of different firings go on in any order, and a
    history may end (the page goes away) while handlers still wait. *)
Fixpoint event_loop (todo : list page_event) (waiting : list suspension)
  : M (list suspension) :=
  match todo with
  | [] => ret waiting
  | Fired type :: todo' =>
      started <- fire type ;;
      event_loop todo' (waiting ++ started)
  | Resumed i :: todo' =>
      match waiting !! i with
      | Some handler =>
          next <- resume handler ;;
          event_loop todo'
            match next with
            | Some handler' => <[i := handler']> waiting
            | None => delete i waiting
            end
      | None => event_loop todo' waiting
      end
  | Settled p o :: todo' =>
      settle_promise p o ;;
      event_loop todo' waiting
  end.
End Program.

(** * Vocabulary of the claims *)

(** ** Traces *)

(** The events a program adds to the trace when run from [st]. *)
Definition events_of {A} (m : M A) (st : state) : list event :=
  drop (length (trace st)) (trace (m st).2).

(** [m], run from [st], completes as [r] after adding exactly [evs] to the
    trace, and changes nothing else. *)
Definition runs {A} (m : M A) (st : state) (r : completion A) (evs : list event) : Prop :=
  m st = (r, set_trace (trace st ++ evs) st).

(** How a call's outcome completes the calling statement. *)
Definition completes (o : outcome) : completion value :=
  match o with
  | Returns v => Normal v
  | Throws e => Thrown e
  end.

(** ** The paths of the unload handler *)

(** A run of unguarded calls in sequence: each returns, or one throws and
    ends the run. *)
Inductive seq_path : list call → completion unit → list event → Prop :=
| seq_done : seq_path [] (Normal tt) []
| seq_throws c cs e : seq_path (c :: cs) (Thrown e) [ECall c (Throws e)]
| seq_returns c cs v r evs :
    seq_path cs r evs → seq_path (c :: cs) r (ECall c (Returns v) :: evs).

Definition network_failure_log (e : value) : event :=
  EConsoleError [VString "WebSocketService清理失败:"; e].

Definition optimizer_failure_log (e : value) : event :=
  EConsoleError [VString "内存优化器清理失败:"; e].

(** Lines 40-45, the first guarded block. *)
Inductive network_path : list event → Prop :=
| network_destroyed ns v :
    network_path [EImport WebsocketServiceModule (Returns ns);
                  ECall WsServiceDestroyInstance (Returns v)]
| network_destroy_throws ns e :
    network_path [EImport WebsocketServiceModule (Returns ns);
                  ECall WsServiceDestroyInstance (Throws e);
                  network_failure_log e]
| network_import_rejects e :
    network_path [EImport WebsocketServiceModule (Throws e);
                  network_failure_log e].

(** Lines 57-62, the second guarded block. *)
Inductive optimizer_path : list event → Prop :=
| optimizer_cleaned ns inst v :
    optimizer_path [EImport MemoryOptimizationModule (Returns ns);
                    ECall MemOptGetInstance (Returns inst);
                    ECall MemOptCleanup (Returns v)]
| optimizer_cleanup_throws ns inst e :
    optimizer_path [EImport MemoryOptimizationModule (Returns ns);
                    ECall MemOptGetInstance (Returns inst);
                    ECall MemOptCleanup (Throws e);
                    optimizer_failure_log e]
| optimizer_instance_throws ns e :
    optimizer_path [EImport MemoryOptimizationModule (Returns ns);
                    ECall MemOptGetInstance (Throws e);
                    optimizer_failure_log e]
| optimizer_import_rejects e :
    optimizer_path [EImport MemoryOptimizationModule (Throws e);
                    optimizer_failure_log e].

Definition unload_banner : event :=
  EConsoleLog [VString "🧹 应用关闭，执行清理..."].

(** The unguarded calls of lines 48-54 and of the dev-only block. *)
Definition plain_cleanup : list call :=
  [LeakStopMonitoring; WsCleanerCleanupAll; StoreCleanerCleanupAll].

Definition dev_cleanup (DEV : bool) : list call :=
  if DEV
  then [MemMonStopMonitoring; PreloaderDestroy; ListenerManagerCleanup;
        CodeSplittingCleanup; BundlePrintReport]
  else [].

(** Every way the unload handler can run. *)
Inductive handler_path (DEV : bool) : completion unit → list event → Prop :=
| handler_aborts_early net mid e :
    network_path net →
    seq_path plain_cleanup (Thrown e) mid →
    handler_path DEV (Thrown e) (unload_banner :: net ++ mid)
| handler_reaches_dev net mid opt r dev :
    network_path net →
    seq_path plain_cleanup (Normal tt) mid →
    optimizer_path opt →
    seq_path (dev_cleanup DEV) r dev →
    handler_path DEV r (unload_banner :: net ++ mid ++ opt ++ dev).

(** ** The steps of the unload handler *)

(** The cleanup steps of lines 39-71, in source order. *)
Inductive step :=
| NetworkServiceStep       (* lines 40-45: import, then destroyInstance *)
| StopLeakMonitoring       (* line 48 *)
| CleanWebSockets          (* line 51 *)
| CleanStores              (* line 54 *)
| MemoryOptimizerStep      (* lines 57-62: import, then getInstance().cleanup() *)
| StopMemoryMonitor        (* line 66 *)
| DestroyPreloader         (* line 67 *)
| CleanListeners           (* line 68 *)
| CleanCodeSplitting       (* line 69 *)
| PrintBundleReport.       (* line 70 *)

Global Instance step_eq_dec : EqDecision step.
Proof. solve_decision. Defined.

(** The calls made inside one of the two try blocks. *)
Definition guarded (c : call) : bool :=
  match c with
  | WsServiceDestroyInstance | MemOptGetInstance | MemOptCleanup => true
  | _ => false
  end.

(** The step an unguarded cleanup call is. *)
Definition call_step (c : call) : option step :=
  match c with
  | LeakStopMonitoring => Some StopLeakMonitoring
  | WsCleanerCleanupAll => Some CleanWebSockets
  | StoreCleanerCleanupAll => Some CleanStores
  | MemMonStopMonitoring => Some StopMemoryMonitor
  | PreloaderDestroy => Some DestroyPreloader
  | ListenerManagerCleanup => Some CleanListeners
  | CodeSplittingCleanup => Some CleanCodeSplitting
  | BundlePrintReport => Some PrintBundleReport
  | _ => None
  end.

(** The step an event begins: a guarded step begins with its import. *)
Definition step_begun (ev : event) : option step :=
  match ev with
  | EImport WebsocketServiceModule _ => Some NetworkServiceStep
  | EImport MemoryOptimizationModule _ => Some MemoryOptimizerStep
  | ECall c _ => call_step c
  | _ => None
  end.

Definition steps_of (evs : list event) : list step := omap step_begun evs.

(** The steps the handler has, by build mode. *)
Definition handler_steps (DEV : bool) : list step :=
  [NetworkServiceStep; StopLeakMonitoring; CleanWebSockets; CleanStores;
   MemoryOptimizerStep] ++
  (if DEV
   then [StopMemoryMonitor; DestroyPreloader; CleanListeners;
         CleanCodeSplitting; PrintBundleReport]
   else []).

(** The failure of a guarded step, with its reason. *)
Definition network_failure (ev : event) : option value :=
  match ev with
  | EImport WebsocketServiceModule (Throws e) => Some e
  | ECall WsServiceDestroyInstance (Throws e) => Some e
  | _ => None
  end.

Definition optimizer_failure (ev : event) : option value :=
  match ev with
  | EImport MemoryOptimizationModule (Throws e) => Some e
  | ECall MemOptGetInstance (Throws e) => Some e
  | ECall MemOptCleanup (Throws e) => Some e
  | _ => None
  end.

(** An unguarded call that throws. *)
Definition unguarded_throw (ev : event) : bool :=
  match ev with
  | ECall c (Throws _) => negb (guarded c)
  | _ => false
  end.

(** No unguarded call throws in [evs]. *)
Definition no_unguarded_throw (evs : list event) : Prop :=
  ∀ c e, guarded c = false → ECall c (Throws e) ∉ evs.

(** The sequence as the specification lists it: the dev-only part names
    four steps. *)
Definition declared_steps (DEV : bool) : list step :=
  [NetworkServiceStep; StopLeakMonitoring; CleanWebSockets; CleanStores;
   MemoryOptimizerStep] ++
  (if DEV
   then [StopMemoryMonitor; DestroyPreloader; CleanListeners; PrintBundleReport]
   else []).

(** A firing of the handler begins every declared step, in that order. *)
Definition declared_sequence_invoked {num} (E : env num) (DEV : bool) (st : state) : Prop :=
  declared_steps DEV `sublist_of` steps_of (events_of (unload_handler E DEV) st).

(** ** Operations on the window object after startup *)

(** What later code may try on a property of window. *)
Inductive window_op :=
| Assign (name : string) (v : value)          (* window.name = v *)
| Define (name : string) (d : descriptor)     (* Object.defineProperty *)
| Delete (name : string).                     (* delete window.name *)

(** The window after the attempt: a refused operation (a TypeError in
    strict code, silence in sloppy code) leaves it as it was. *)
Definition attempt (op : window_op) (w : gmap string property) : gmap string property :=
  default w
    match op with
    | Assign name v => assign_property name v w
    | Define name d => define_property name d w
    | Delete name => delete_property name w
    end.

Definition attempt_all (ops : list window_op) (w : gmap string property)
  : gmap string property :=
  foldl (λ w op, attempt op w) w ops.

(** ** Events of the module body *)

Definition is_perf_tools_definition (ev : event) : bool :=
  bool_decide (ev = EWindowDefine "__PERF_TOOLS__").

(** Every event [m] adds to the trace, from any state, satisfies [P]. *)
Definition emits {A} (P : event → Prop) (m : M A) : Prop :=
  ∀ st, ∃ evs, trace (m st).2 = trace st ++ evs ∧ Forall P evs.

(** The dev-only monitoring calls of lines 92 and 95. *)
Definition dev_monitoring (ev : event) : bool :=
  match ev with
  | ECall (MemMonStartMonitoring _) _ => true
  | ECall (PreloadComponent _) _ => true
  | _ => false
  end.

(** Lines 17-29: what runs before the leak monitor is started. *)
Definition startup_calls : list call :=
  [CreateApp; UsePinia; AppUse "router"; AppUse "i18n"; StoreManagerInitialize].

Definition is_leak_start (ev : event) : bool :=
  match ev with
  | ECall (LeakStartMonitoring _) _ => true
  | _ => false
  end.

(** Line 33: [isDev ? 15000 : 30000]. *)
Definition leak_interval (DEV : bool) : Z := if DEV then 15000 else 30000.

(** Lines 98-104: the status lines logged after the preload statement. *)
Definition dev_status_logs : list event :=
  [EConsoleLog [VString "📊 性能监控工具状态:"];
   EConsoleLog [VString "- 内存泄露检测: 已启动"];
   EConsoleLog [VString "- 内存监控: 已启动"];
   EConsoleLog [VString "- 组件预加载器: 已启动"];
   EConsoleLog [VString "- Bundle分析器: 已启动"];
   EConsoleLog [VString "- 代码分割管理器: 已启动"];
   EConsoleLog [VString "- 事件监听器管理: 已启动"]].

(** ** The blocks of the unload handler *)

Section Blocks.
Context {num : Type} (E : env num).

(** A run of calls in sequence. *)
Fixpoint invoke_all (cs : list call) : M unit :=
  match cs with
  | [] => ret tt
  | c :: cs' => invoke E c ;; invoke_all cs'
  end.

(** Lines 40-45. *)
Definition network_block : M unit :=
  try_catch
    (await_import E WebsocketServiceModule ;;
     invoke E WsServiceDestroyInstance ;;
     ret tt)
    (λ error, console_error [VString "WebSocketService清理失败:"; error]).

(** Lines 57-62. *)
Definition optimizer_block : M unit :=
  try_catch
    (await_import E MemoryOptimizationModule ;;
     invoke E MemOptGetInstance ;;
     invoke E MemOptCleanup ;;
     ret tt)
    (λ error, console_error [VString "内存优化器清理失败:"; error]).
End Blocks.

(** ** The lines of the performance report *)

Section ReportLines.
Context {num : Type} `{Timestamp num}.

(** One duration line of lines 119-126. *)
Definition duration_line (label : string) (finish start : num) : event :=
  EConsoleLog [VString ("- " +:+ label +:+ ": " +:+ to_fixed (num_sub finish start) 2 +:+ "ms")].

(** What the report logs: nothing without an entry. *)
Definition report_events (E : env num) : list event :=
  match head (navigation_entries E) with
  | Some entry =>
      [EConsoleLog [VString "⚡ 应用性能指标:"];
       duration_line "DOMContentLoaded"
         (domContentLoadedEventEnd entry) (domContentLoadedEventStart entry);
       duration_line "Load Complete" (loadEventEnd entry) (loadEventStart entry);
       duration_line "DNS Lookup" (domainLookupEnd entry) (domainLookupStart entry);
       duration_line "TCP Connect" (connectEnd entry) (connectStart entry)]
  | None => []
  end.
End ReportLines.

(** ** Sample pages *)

(** Timestamps in whole milliseconds. *)
Global Instance Z_timestamp : Timestamp Z :=
  {| num_sub := Z.sub;
     to_fixed x digits :=
       pretty x +:+ "." +:+ String.concat "" (replicate digits "0") |}.

Definition sample_entry : navigation_timing Z :=
  {| domContentLoadedEventStart := 120; domContentLoadedEventEnd := 135;
     loadEventStart := 300; loadEventEnd := 304;
     domainLookupStart := 2; domainLookupEnd := 9;
     connectStart := 9; connectEnd := 21 |}.

(** Collaborators that do not look at the past: a call throws when
    [throwing] names a reason for it, an import rejects when [rejecting]
    does; preloadComponent returns a promise. *)
Definition scripted (throwing : call → option value)
    (rejecting : module_path → option value) : env Z :=
  {| call_result c _ :=
       match throwing c with
       | Some e => Throws e
       | None =>
           match c with
           | PreloadComponent _ => Returns (VPromise 0)
           | _ => Returns VUndefined
           end
       end;
     import_result m _ :=
       match rejecting m with
       | Some e => Throws e
       | None => Returns (VForeign 0)
       end;
     navigation_entries := [sample_entry] |}.

(** Nothing fails. *)
Definition calm : env Z := scripted (λ _, None) (λ _, None).

(** memoryLeakDetector.stopMonitoring throws. *)
Definition stop_throws : env Z :=
  scripted
    (λ c, if bool_decide (c = LeakStopMonitoring)
          then Some (VString "stopMonitoring failed") else None)
    (λ _, None).

(** The websocket-service chunk fails to load and the memory optimizer's
    cleanup throws. *)
Definition import_rejects : env Z :=
  scripted
    (λ c, if bool_decide (c = MemOptCleanup)
          then Some (VString "cleanup failed") else None)
    (λ m, if bool_decide (m = WebsocketServiceModule)
          then Some (VString "chunk failed to load") else None).

(** The page once the module body has run on it. *)
Definition loaded_page (E : env Z) (DEV : bool) : state :=
  (main E DEV fresh_page).2.

(** No call throws in [evs], as a check. *)
Definition no_call_throws (evs : list event) : bool :=
  forallb (λ ev, match ev with ECall _ (Throws _) => false | _ => true end) evs.

(** ** More vocabulary *)

Definition is_console_error (ev : event) : bool :=
  match ev with
  | EConsoleError _ => true
  | _ => false
  end.

(** The failure of one of the two guarded steps of the unload handler. *)
Definition is_guarded_failure (ev : event) : bool :=
  match network_failure ev, optimizer_failure ev with
  | None, None => false
  | _, _ => true
  end.

(** Line 36: the registration of the unload handler. *)
Definition registration : event :=
  EAddEventListener "beforeunload" UnloadHandler.

(** One of the five calls of lines 66-70. *)
Definition dev_cleanup_call (ev : event) : bool :=
  match ev with
  | ECall c _ => bool_decide (c ∈ dev_cleanup true)
  | _ => false
  end.

(** What an unhandled throw of a callback leaves in the trace. *)
Definition rejection_report (r : completion unit) : list event :=
  match r with
  | Normal _ => []
  | Thrown e => [EUnhandledRejection e]
  end.

(** The property a plain assignment creates. *)
Definition plain_property (v : value) : property :=
  {| prop_value := v; prop_writable := true;
     prop_enumerable := true; prop_configurable := true |}.

(** componentPreloader.preloadComponent throws instead of returning a
    promise. *)
Definition preload_throws : env Z :=
  scripted
    (λ c, if bool_decide (c = PreloadComponent "HomeView")
          then Some (VString "preloader not ready") else None)
    (λ _, None).

(** * Properties *)



Lemma set_trace_twice t1 t2 st : set_trace t2 (set_trace t1 st) = set_trace t2 st.
Proof. reflexivity. Qed.

Lemma set_trace_same st : set_trace (trace st) st = st.
Proof. by destruct st. Qed.

Lemma events_of_trace {A} (m : M A) st r st' evs :
  m st = (r, st') → trace st' = trace st ++ evs → events_of m st = evs.
Proof.
  intros Hm Ht. unfold events_of. rewrite Hm. simpl. rewrite Ht.
  by rewrite drop_app_length.
Qed.

Lemma runs_events {A} (m : M A) st r evs :
  runs m st r evs → events_of m st = evs ∧ (m st).1 = r.
Proof.
  intros Hm. split; [|by rewrite Hm].
  by apply (events_of_trace m st r _ evs Hm).
Qed.

Lemma runs_ret {A} (a : A) st : runs (ret a) st (Normal a) [].
Proof. unfold runs, ret. by rewrite app_nil_r, set_trace_same. Qed.

Lemma runs_emit ev st : runs (emit ev) st (Normal tt) [ev].
Proof. reflexivity. Qed.

Lemma runs_bind {A B} (m : M A) (k : A → M B) st a evs1 r evs2 :
  runs m st (Normal a) evs1 →
  runs (k a) (set_trace (trace st ++ evs1) st) r evs2 →
  runs (bind m k) st r (evs1 ++ evs2).
Proof.
  unfold runs, bind. intros -> ->. simpl. by rewrite app_assoc.
Qed.

Lemma runs_bind_thrown {A B} (m : M A) (k : A → M B) st e evs :
  runs m st (Thrown e) evs → runs (bind m k) st (Thrown e) evs.
Proof. unfold runs, bind. by intros ->. Qed.

Lemma runs_try_normal {A} (body : M A) handler st a evs :
  runs body st (Normal a) evs → runs (try_catch body handler) st (Normal a) evs.
Proof. unfold runs, try_catch. by intros ->. Qed.

Lemma runs_try_thrown {A} (body : M A) handler st e evs1 r evs2 :
  runs body st (Thrown e) evs1 →
  runs (handler e) (set_trace (trace st ++ evs1) st) r evs2 →
  runs (try_catch body handler) st r (evs1 ++ evs2).
Proof.
  unfold runs, try_catch. intros -> ->. simpl. by rewrite app_assoc.
Qed.

Lemma runs_invoke {num} (E : env num) c st :
  runs (invoke E c) st (completes (call_result E c (trace st)))
       [ECall c (call_result E c (trace st))].
Proof. unfold runs, invoke. by destruct (call_result _ _ _). Qed.

Lemma runs_await_import {num} (E : env num) m st :
  runs (await_import E m) st (completes (import_result E m (trace st)))
       [EImport m (import_result E m (trace st))].
Proof. unfold runs, await_import. by destruct (import_result _ _ _). Qed.



Section HandlerPaths.
Context {num : Type} (E : env num).

Lemma invoke_all_runs cs st :
  ∃ r evs, runs (invoke_all E cs) st r evs ∧ seq_path cs r evs.
Proof.
  revert st. induction cs as [|c cs IH]; intros st.
  - exists (Normal tt), []. split; [apply runs_ret | constructor].
  - pose proof (runs_invoke E c st) as Hc.
    destruct (call_result E c (trace st)) as [v|e]; simpl in Hc.
    + destruct (IH (set_trace (trace st ++ [ECall c (Returns v)]) st))
        as (r & evs & Hr & Hp).
      exists r, ([ECall c (Returns v)] ++ evs). split.
      * eapply runs_bind; eauto.
      * by constructor.
    + exists (Thrown e), [ECall c (Throws e)]. split.
      * by apply runs_bind_thrown.
      * constructor.
Qed.

Lemma network_block_runs st :
  ∃ evs, runs (network_block E) st (Normal tt) evs ∧ network_path evs.
Proof.
  unfold network_block, runs, try_catch, bind, await_import, invoke,
    console_error, emit, ret.
  destruct (import_result E _ (trace st)) as [ns|e]; simpl.
  - destruct (call_result E _ _) as [v|e]; simpl;
      eexists; (split; [|constructor]); simpl;
      by rewrite <- ?app_assoc.
  - eexists; (split; [|constructor]); simpl; by rewrite <- ?app_assoc.
Qed.

Lemma optimizer_block_runs st :
  ∃ evs, runs (optimizer_block E) st (Normal tt) evs ∧ optimizer_path evs.
Proof.
  unfold optimizer_block, runs, try_catch, bind, await_import, invoke,
    console_error, emit, ret.
  destruct (import_result E _ (trace st)) as [ns|e]; simpl.
  - destruct (call_result E MemOptGetInstance _) as [inst|e]; simpl.
    + destruct (call_result E MemOptCleanup _) as [v|e]; simpl;
        eexists; (split; [|constructor]); simpl;
        by rewrite <- ?app_assoc.
    + eexists; (split; [|constructor]); simpl; by rewrite <- ?app_assoc.
  - eexists; (split; [|constructor]); simpl; by rewrite <- ?app_assoc.
Qed.

(** The handler, cut at its blocks. *)
Lemma unload_handler_blocks DEV st :
  unload_handler E DEV st =
  (emit unload_banner ;;
   network_block E ;;
   invoke_all E plain_cleanup ;;
   optimizer_block E ;;
   invoke_all E (dev_cleanup DEV)) st.
Proof.
  unfold unload_handler, network_block, optimizer_block, console_log,
    isDev, when, plain_cleanup, unload_banner, emit.
  destruct DEV; cbn [dev_cleanup invoke_all]; unfold bind; cbn beta iota;
    repeat (match goal with
            | |- context [match ?x with (_, _) => _ end] =>
                destruct x as [[?|?] ?]
            end; simpl; try done).
Qed.

(** Every run of the handler follows one of its paths, and touches
    nothing but the trace. *)
Lemma unload_handler_runs DEV st :
  ∃ r evs, runs (unload_handler E DEV) st r evs ∧ handler_path DEV r evs.
Proof.
  unfold runs. setoid_rewrite unload_handler_blocks.
  set (st0 := set_trace (trace st ++ [unload_banner]) st).
  destruct (network_block_runs st0) as (net & Hnet & Pnet).
  set (st1 := set_trace (trace st0 ++ net) st0).
  destruct (invoke_all_runs plain_cleanup st1) as (rm & mid & Hmid & Pmid).
  destruct rm as [[]|e].
  - set (st2 := set_trace (trace st1 ++ mid) st1).
    destruct (optimizer_block_runs st2) as (opt & Hopt & Popt).
    set (st3 := set_trace (trace st2 ++ opt) st2).
    destruct (invoke_all_runs (dev_cleanup DEV) st3) as (r & dev & Hdev & Pdev).
    exists r, (unload_banner :: net ++ mid ++ opt ++ dev).
    split; [|by econstructor].
    change (unload_banner :: net ++ mid ++ opt ++ dev)
      with ([unload_banner] ++ (net ++ mid ++ opt ++ dev)).
    eapply (runs_bind _ _ st tt); [apply runs_emit|].
    eapply runs_bind; [exact Hnet|].
    eapply runs_bind; [exact Hmid|].
    eapply runs_bind; [exact Hopt|]. exact Hdev.
  - exists (Thrown e), (unload_banner :: net ++ mid).
    split; [|by econstructor].
    change (unload_banner :: net ++ mid) with ([unload_banner] ++ (net ++ mid)).
    eapply (runs_bind _ _ st tt); [apply runs_emit|].
    eapply runs_bind; [exact Hnet|].
    by apply runs_bind_thrown.
Qed.
End HandlerPaths.



Ltac inv_path H := inversion H; clear H; subst.

Ltac inv_seq :=
  repeat match goal with
         | H : seq_path (_ :: _) _ _ |- _ => inv_path H
         | H : seq_path [] _ _ |- _ => inv_path H
         end.

Section PathFacts.

Lemma seq_path_calls cs r evs :
  seq_path cs r evs → ∀ ev, ev ∈ evs → ∃ c o, ev = ECall c o ∧ c ∈ cs.
Proof.
  induction 1 as [|c cs e|c cs v r evs _ IH]; intros ev Hev.
  - by apply elem_of_nil in Hev.
  - apply list_elem_of_singleton in Hev as ->.
    exists c, (Throws e). split; [done | left].
  - apply elem_of_cons in Hev as [->|Hev].
    + exists c, (Returns v). split; [done | left].
    + destruct (IH ev Hev) as (c' & o & -> & Hc').
      exists c', o. split; [done | by right].
Qed.

(** In a run of unguarded calls a throw is the last thing that happens,
    and it is how the run completes. *)
Lemma seq_path_throw_last cs r evs c e :
  seq_path cs r evs → ECall c (Throws e) ∈ evs →
  r = Thrown e ∧ ∃ pre, evs = pre ++ [ECall c (Throws e)].
Proof.
  induction 1 as [|c' cs e'|c' cs v r evs _ IH]; intros Hev.
  - by apply elem_of_nil in Hev.
  - apply list_elem_of_singleton in Hev. injection Hev as -> ->.
    split; [done | by exists []].
  - apply elem_of_cons in Hev as [Hev|Hev]; [done|].
    destruct (IH Hev) as (-> & pre & ->).
    split; [done | by exists (ECall c' (Returns v) :: pre)].
Qed.

Lemma seq_path_normal cs evs c e :
  seq_path cs (Normal tt) evs → ECall c (Throws e) ∉ evs.
Proof.
  intros Hp Hev. by destruct (seq_path_throw_last _ _ _ _ _ Hp Hev).
Qed.

Lemma seq_path_length cs r evs : seq_path cs r evs → (length evs ≤ length cs)%nat.
Proof. induction 1; simpl; lia. Qed.

(** A call that was made comes right after the return of the call
    before it in the source. *)
Lemma seq_path_adjacent cs1 c1 c2 cs2 r evs o :
  seq_path (cs1 ++ c1 :: c2 :: cs2) r evs →
  c2 ∉ cs1 → c2 ≠ c1 → c2 ∉ cs2 →
  ECall c2 o ∈ evs →
  ∃ pre v post,
    evs = pre ++ [ECall c1 (Returns v); ECall c2 o] ++ post ∧
    (length post ≤ length cs2)%nat.
Proof.
  revert evs.
  induction cs1 as [|c cs1 IH]; intros evs Hp Hn1 Hn2 Hn3 Hev; simpl in Hp.
  - inv_path Hp.
    { apply list_elem_of_singleton in Hev. congruence. }
    apply elem_of_cons in Hev as [Hev|Hev]; [congruence|].
    match goal with H : seq_path (c2 :: _) _ _ |- _ => inv_path H end.
    { apply list_elem_of_singleton in Hev as ->. exists [], v, [].
      split; [done | simpl; lia]. }
    apply elem_of_cons in Hev as [->|Hev].
    { exists [], v, evs. split; [done|]. by eapply seq_path_length. }
    exfalso.
    match goal with H : seq_path cs2 _ _ |- _ =>
      destruct (seq_path_calls _ _ _ H _ Hev) as (c' & o' & Heq & Hin)
    end.
    by injection Heq as <- <-.
  - apply not_elem_of_cons in Hn1 as [Hc Hn1].
    inv_path Hp.
    { apply list_elem_of_singleton in Hev. congruence. }
    apply elem_of_cons in Hev as [Hev|Hev]; [congruence|].
    match goal with H : seq_path (cs1 ++ _) _ _ |- _ =>
      destruct (IH _ H Hn1 Hn2 Hn3 Hev) as (pre & v' & post & -> & Hlen)
    end.
    by exists (ECall c (Returns v) :: pre), v', post.
Qed.

(** Only unguarded calls happen in a run of unguarded calls. *)
Lemma seq_path_no_failures cs r evs :
  seq_path cs r evs → Forall (λ c, guarded c = false) cs →
  ∀ ev, ev ∈ evs → network_failure ev = None ∧ optimizer_failure ev = None.
Proof.
  intros Hp Hcs ev Hev.
  destruct (seq_path_calls _ _ _ Hp _ Hev) as (c & o & -> & Hc).
  rewrite Forall_forall in Hcs. specialize (Hcs c Hc).
  by destruct c, o.
Qed.

Lemma network_path_steps net : network_path net → steps_of net = [NetworkServiceStep].
Proof. by destruct 1. Qed.

Lemma optimizer_path_steps opt : optimizer_path opt → steps_of opt = [MemoryOptimizerStep].
Proof. by destruct 1. Qed.

Lemma network_path_quiet net ev :
  network_path net → ev ∈ net →
  unguarded_throw ev = false ∧ optimizer_failure ev = None ∧
  ∀ c, guarded c = false → ∀ o, ev ≠ ECall c o.
Proof.
  destruct 1; rewrite ?elem_of_cons, elem_of_nil;
    intros Hev; destruct_or!; subst; try done;
    (split_and!; [done..|]); intros c Hc o ?; by simplify_eq/=.
Qed.

Lemma optimizer_path_quiet opt ev :
  optimizer_path opt → ev ∈ opt →
  unguarded_throw ev = false ∧ network_failure ev = None ∧
  ∀ c, guarded c = false → ∀ o, ev ≠ ECall c o.
Proof.
  destruct 1; rewrite ?elem_of_cons, elem_of_nil;
    intros Hev; destruct_or!; subst; try done;
    (split_and!; [done..|]); intros c Hc o ?; by simplify_eq/=.
Qed.

Lemma plain_cleanup_unguarded : Forall (λ c, guarded c = false) plain_cleanup.
Proof. by repeat constructor. Qed.

Lemma dev_cleanup_unguarded DEV : Forall (λ c, guarded c = false) (dev_cleanup DEV).
Proof. destruct DEV; by repeat constructor. Qed.

Lemma steps_of_app l1 l2 : steps_of (l1 ++ l2) = steps_of l1 ++ steps_of l2.
Proof. apply omap_app. Qed.
End PathFacts.

Section HandlerFacts.

Lemma seq_path_thrown_event cs e evs :
  seq_path cs (Thrown e) evs → ∃ c, c ∈ cs ∧ ECall c (Throws e) ∈ evs.
Proof.
  remember (Thrown e) as r eqn:Hr.
  induction 1 as [|c cs e'|c cs v r evs _ IH]; [done| |].
  - injection Hr as ->. exists c. split; left.
  - destruct (IH Hr) as (c' & ? & ?). exists c'. split; by right.
Qed.

Lemma handler_path_completes DEV r evs :
  handler_path DEV r evs → no_unguarded_throw evs → r = Normal tt.
Proof.
  intros Hp Hno. destruct r as [[]|e]; [done|]. exfalso.
  inversion Hp as [net mid e0 Hnet Hmid|net mid opt r0 dev Hnet Hmid Hopt Hdev];
    subst; clear Hp.
  - destruct (seq_path_thrown_event _ _ _ Hmid) as (c & Hc & Hev).
    apply (Hno c e).
    + pose proof plain_cleanup_unguarded as Hu.
      rewrite Forall_forall in Hu. by apply Hu.
    + right. apply elem_of_app. by right.
  - destruct (seq_path_thrown_event _ _ _ Hdev) as (c & Hc & Hev).
    apply (Hno c e).
    + pose proof (dev_cleanup_unguarded DEV) as Hu.
      rewrite Forall_forall in Hu. by apply Hu.
    + right. rewrite !elem_of_app. auto.
Qed.

Lemma steps_apart (l1 l2 : list step) :
  bool_decide (Forall (λ s, s ∉ l2) l1) = true → ∀ s, s ∈ l1 → s ∉ l2.
Proof.
  intros Hd%bool_decide_eq_true_1. by rewrite Forall_forall in Hd.
Qed.

(** The steps begun are an initial part of the handler's steps, and all
    of them when the handler completes normally. *)
Lemma handler_path_steps DEV r evs :
  handler_path DEV r evs →
  ∃ remaining,
    handler_steps DEV = steps_of evs ++ remaining ∧
    (∀ s, s ∈ remaining → s ∉ steps_of evs) ∧
    (r = Normal tt → remaining = []).
Proof.
  intros Hp. inversion Hp as [net mid e0 Hnet Hmid|net mid opt r0 dev Hnet Hmid Hopt Hdev];
    subst; clear Hp.
  - change (unload_banner :: net ++ mid) with ([unload_banner] ++ net ++ mid).
    rewrite !steps_of_app, (network_path_steps net) by done.
    unfold plain_cleanup in *. inv_seq; simpl;
      (eexists; split; [reflexivity|]); (split; [|done]);
      destruct DEV; by apply steps_apart.
  - change (unload_banner :: net ++ mid ++ opt ++ dev)
      with ([unload_banner] ++ net ++ mid ++ opt ++ dev).
    rewrite !steps_of_app, (network_path_steps net),
      (optimizer_path_steps opt) by done.
    unfold plain_cleanup in *.
    destruct DEV; simpl in *; inv_seq; simpl;
      (eexists; split; [reflexivity|]);
      (split; [by apply steps_apart | done]).
Qed.

Lemma handler_path_unguarded_throw DEV r evs c e :
  handler_path DEV r evs → guarded c = false →
  ECall c (Throws e) ∈ evs →
  r = Thrown e ∧ ∃ pre, evs = pre ++ [ECall c (Throws e)].
Proof.
  intros Hp Hc Hev.
  assert (Hu : unguarded_throw (ECall c (Throws e)) = true)
    by (simpl; by rewrite Hc).
  inversion Hp as [net mid e0 Hnet Hmid|net mid opt r0 dev Hnet Hmid Hopt Hdev];
    subst; clear Hp.
  - apply elem_of_cons in Hev as [Hev|Hev]; [done|].
    apply elem_of_app in Hev as [Hev|Hev].
    { destruct (network_path_quiet _ _ Hnet Hev) as [Hq _]. congruence. }
    destruct (seq_path_throw_last _ _ _ _ _ Hmid Hev) as (-> & pre & ->).
    split; [done|]. exists (unload_banner :: net ++ pre).
    simpl. by rewrite <- !app_assoc.
  - apply elem_of_cons in Hev as [Hev|Hev]; [done|].
    rewrite !elem_of_app in Hev. destruct Hev as [Hev|[Hev|[Hev|Hev]]].
    { destruct (network_path_quiet _ _ Hnet Hev) as [Hq _]. congruence. }
    { by destruct (seq_path_normal _ _ _ _ Hmid Hev). }
    { destruct (optimizer_path_quiet _ _ Hopt Hev) as [Hq _]. congruence. }
    destruct (seq_path_throw_last _ _ _ _ _ Hdev Hev) as (-> & pre & ->).
    split; [done|]. exists (unload_banner :: net ++ mid ++ opt ++ pre).
    simpl. by rewrite <- !app_assoc.
Qed.

Lemma declared_steps_sublist DEV : declared_steps DEV `sublist_of` handler_steps DEV.
Proof.
  unfold declared_steps, handler_steps. apply sublist_app; [done|].
  destruct DEV; [|done].
  do 3 apply sublist_skip. apply sublist_cons. by apply sublist_skip.
Qed.
End HandlerFacts.

Section GuardedBlocks.

Lemma network_path_failure net ev e :
  network_path net → ev ∈ net → network_failure ev = Some e →
  ∃ pre, net = pre ++ [ev; network_failure_log e].
Proof.
  destruct 1; rewrite ?elem_of_cons, elem_of_nil;
    intros Hev Hf; destruct_or!; subst; simplify_eq/=.
  - by eexists [_].
  - by exists [].
Qed.

Lemma optimizer_path_failure opt ev e :
  optimizer_path opt → ev ∈ opt → optimizer_failure ev = Some e →
  ∃ pre, opt = pre ++ [ev; optimizer_failure_log e].
Proof.
  destruct 1; rewrite ?elem_of_cons, elem_of_nil;
    intros Hev Hf; destruct_or!; subst; simplify_eq/=.
  - by eexists [_; _].
  - by eexists [_].
  - by exists [].
Qed.

Lemma seq_path_head c cs r evs :
  seq_path (c :: cs) r evs → ∃ o rest, evs = ECall c o :: rest.
Proof. intros Hp. inv_path Hp; eauto. Qed.

Lemma handler_path_network_failure DEV r evs ev e :
  handler_path DEV r evs → ev ∈ evs → network_failure ev = Some e →
  ∃ pre o post,
    evs = pre ++ [ev; network_failure_log e; ECall LeakStopMonitoring o] ++ post.
Proof.
  intros Hp Hev Hf.
  assert (∃ net tail o rest, network_path net ∧
            evs = unload_banner :: net ++ tail ∧
            tail = ECall LeakStopMonitoring o :: rest ∧
            ∀ ev', ev' ∈ tail → network_failure ev' = None)
    as (net & tail & o & rest & Hnet & -> & Htail & Hquiet).
  { inversion Hp as [net mid e0 Hnet Hmid|net mid opt r0 dev Hnet Hmid Hopt Hdev];
      subst; clear Hp;
      destruct (seq_path_head _ _ _ _ Hmid) as (o & rest & Hm).
    - exists net, mid, o, rest. split_and!; [done..|].
      intros ev' Hev'.
      by apply (seq_path_no_failures _ _ _ Hmid plain_cleanup_unguarded).
    - exists net, (mid ++ opt ++ dev), o, (rest ++ opt ++ dev).
      split_and!; [done| done |by rewrite Hm|].
      intros ev'. rewrite !elem_of_app. intros [Hev'|[Hev'|Hev']].
      + by apply (seq_path_no_failures _ _ _ Hmid plain_cleanup_unguarded).
      + by apply (optimizer_path_quiet _ _ Hopt Hev').
      + by apply (seq_path_no_failures _ _ _ Hdev (dev_cleanup_unguarded DEV)). }
  apply elem_of_cons in Hev as [->|Hev]; [done|].
  apply elem_of_app in Hev as [Hev|Hev].
  - destruct (network_path_failure _ _ _ Hnet Hev Hf) as (pre & ->).
    exists (unload_banner :: pre), o, rest. rewrite Htail.
    simpl. by rewrite <- !app_assoc.
  - specialize (Hquiet _ Hev). congruence.
Qed.

Lemma handler_path_optimizer_failure DEV r evs ev e :
  handler_path DEV r evs → ev ∈ evs → optimizer_failure ev = Some e →
  ∃ pre post,
    evs = pre ++ [ev; optimizer_failure_log e] ++ post ∧
    seq_path (dev_cleanup DEV) r post.
Proof.
  intros Hp Hev Hf.
  inversion Hp as [net mid e0 Hnet Hmid|net mid opt r0 dev Hnet Hmid Hopt Hdev];
    subst; clear Hp;
    (apply elem_of_cons in Hev as [->|Hev]; [done|]);
    rewrite !elem_of_app in Hev; destruct_or!.
  - destruct (network_path_quiet _ _ Hnet Hev) as (_ & ? & _). congruence.
  - destruct (seq_path_no_failures _ _ _ Hmid plain_cleanup_unguarded _ Hev).
    congruence.
  - destruct (network_path_quiet _ _ Hnet Hev) as (_ & ? & _). congruence.
  - destruct (seq_path_no_failures _ _ _ Hmid plain_cleanup_unguarded _ Hev).
    congruence.
  - destruct (optimizer_path_failure _ _ _ Hopt Hev Hf) as (pre & ->).
    exists (unload_banner :: net ++ mid ++ pre), dev. split; [|done].
    simpl. by rewrite <- !app_assoc.
  - destruct (seq_path_no_failures _ _ _ Hdev (dev_cleanup_unguarded DEV) _ Hev).
    congruence.
Qed.

Lemma handler_path_code_splitting DEV r evs o :
  handler_path DEV r evs → ECall CodeSplittingCleanup o ∈ evs →
  DEV = true ∧
  ∃ pre v post,
    evs = pre ++ [ECall ListenerManagerCleanup (Returns v);
                  ECall CodeSplittingCleanup o] ++ post.
Proof.
  intros Hp Hev.
  inversion Hp as [net mid e0 Hnet Hmid|net mid opt r0 dev Hnet Hmid Hopt Hdev];
    subst; clear Hp;
    (apply elem_of_cons in Hev as [?|Hev]; [done|]);
    rewrite !elem_of_app in Hev; destruct_or!.
  - destruct (network_path_quiet _ _ Hnet Hev) as (_ & _ & Hq).
    by destruct (Hq CodeSplittingCleanup eq_refl o).
  - destruct (seq_path_calls _ _ _ Hmid _ Hev) as (c & o' & Heq & Hc).
    injection Heq as <- <-. unfold plain_cleanup in Hc.
    rewrite !elem_of_cons, elem_of_nil in Hc. by destruct_or!.
  - destruct (network_path_quiet _ _ Hnet Hev) as (_ & _ & Hq).
    by destruct (Hq CodeSplittingCleanup eq_refl o).
  - destruct (seq_path_calls _ _ _ Hmid _ Hev) as (c & o' & Heq & Hc).
    injection Heq as <- <-. unfold plain_cleanup in Hc.
    rewrite !elem_of_cons, elem_of_nil in Hc. by destruct_or!.
  - destruct (optimizer_path_quiet _ _ Hopt Hev) as (_ & _ & Hq).
    by destruct (Hq CodeSplittingCleanup eq_refl o).
  - destruct DEV; [|by inv_path Hdev; apply elem_of_nil in Hev].
    split; [done|].
    destruct (seq_path_adjacent [MemMonStopMonitoring; PreloaderDestroy]
                ListenerManagerCleanup CodeSplittingCleanup [BundlePrintReport]
                r dev o Hdev) as (pre & v & post & -> & _);
      [compute_done|done|compute_done|done|].
    exists (unload_banner :: net ++ mid ++ opt ++ pre), v, post.
    simpl. by rewrite <- !app_assoc.
Qed.

Lemma handler_path_print_report DEV r evs o :
  handler_path DEV r evs → ECall BundlePrintReport o ∈ evs →
  ∃ pre v,
    evs = pre ++ [ECall CodeSplittingCleanup (Returns v);
                  ECall BundlePrintReport o].
Proof.
  intros Hp Hev.
  inversion Hp as [net mid e0 Hnet Hmid|net mid opt r0 dev Hnet Hmid Hopt Hdev];
    subst; clear Hp;
    (apply elem_of_cons in Hev as [?|Hev]; [done|]);
    rewrite !elem_of_app in Hev; destruct_or!.
  - destruct (network_path_quiet _ _ Hnet Hev) as (_ & _ & Hq).
    by destruct (Hq BundlePrintReport eq_refl o).
  - destruct (seq_path_calls _ _ _ Hmid _ Hev) as (c & o' & Heq & Hc).
    injection Heq as <- <-. unfold plain_cleanup in Hc.
    rewrite !elem_of_cons, elem_of_nil in Hc. by destruct_or!.
  - destruct (network_path_quiet _ _ Hnet Hev) as (_ & _ & Hq).
    by destruct (Hq BundlePrintReport eq_refl o).
  - destruct (seq_path_calls _ _ _ Hmid _ Hev) as (c & o' & Heq & Hc).
    injection Heq as <- <-. unfold plain_cleanup in Hc.
    rewrite !elem_of_cons, elem_of_nil in Hc. by destruct_or!.
  - destruct (optimizer_path_quiet _ _ Hopt Hev) as (_ & _ & Hq).
    by destruct (Hq BundlePrintReport eq_refl o).
  - destruct DEV; [|by inv_path Hdev; apply elem_of_nil in Hev].
    destruct (seq_path_adjacent
                [MemMonStopMonitoring; PreloaderDestroy; ListenerManagerCleanup]
                CodeSplittingCleanup BundlePrintReport []
                r dev o Hdev) as (pre & v & post & -> & Hlen);
      [compute_done|done|compute_done|done|].
    destruct post; [|simpl in Hlen; lia].
    exists (unload_banner :: net ++ mid ++ opt ++ pre), v.
    simpl. by rewrite <- !app_assoc.
Qed.

Lemma handler_path_dev_tail r evs :
  handler_path true r evs → r = Normal tt →
  ∃ pre v1 v2 v3,
    evs = pre ++ [ECall ListenerManagerCleanup (Returns v1);
                  ECall CodeSplittingCleanup (Returns v2);
                  ECall BundlePrintReport (Returns v3)].
Proof.
  intros Hp ->.
  inversion Hp as [|net mid opt r0 dev Hnet Hmid Hopt Hdev]; subst; clear Hp.
  simpl in Hdev. inv_seq.
  eexists (unload_banner :: net ++ mid ++ opt ++ [_; _]), _, _, _.
  simpl. by rewrite <- !app_assoc.
Qed.
End GuardedBlocks.

(** A run in which no unguarded call throws, event by event. *)
Section CompleteRuns.

Lemma network_path_outcomes net :
  network_path net →
  ∃ imported destroyed,
    net = EImport WebsocketServiceModule imported ::
          match imported with
          | Returns _ =>
              ECall WsServiceDestroyInstance destroyed ::
              match destroyed with
              | Returns _ => []
              | Throws e => [network_failure_log e]
              end
          | Throws e => [network_failure_log e]
          end.
Proof.
  destruct 1 as [ns v|ns e|e].
  - by exists (Returns ns), (Returns v).
  - by exists (Returns ns), (Throws e).
  - by exists (Throws e), (Throws e).
Qed.

Lemma optimizer_path_outcomes opt :
  optimizer_path opt →
  ∃ imported instance cleaned,
    opt = EImport MemoryOptimizationModule imported ::
          match imported with
          | Returns _ =>
              ECall MemOptGetInstance instance ::
              match instance with
              | Returns _ =>
                  ECall MemOptCleanup cleaned ::
                  match cleaned with
                  | Returns _ => []
                  | Throws e => [optimizer_failure_log e]
                  end
              | Throws e => [optimizer_failure_log e]
              end
          | Throws e => [optimizer_failure_log e]
          end.
Proof.
  destruct 1 as [ns inst v|ns inst e|ns e|e].
  - by exists (Returns ns), (Returns inst), (Returns v).
  - by exists (Returns ns), (Returns inst), (Throws e).
  - by exists (Returns ns), (Throws e), (Throws e).
  - by exists (Throws e), (Throws e), (Throws e).
Qed.

Lemma plain_cleanup_returned mid :
  seq_path plain_cleanup (Normal tt) mid →
  ∃ v1 v2 v3,
    mid = [ECall LeakStopMonitoring (Returns v1);
           ECall WsCleanerCleanupAll (Returns v2);
           ECall StoreCleanerCleanupAll (Returns v3)].
Proof. unfold plain_cleanup. intros Hp. inv_seq. by eexists _, _, _. Qed.

Lemma dev_cleanup_returned DEV dev :
  seq_path (dev_cleanup DEV) (Normal tt) dev →
  ∃ w1 w2 w3 w4 w5,
    dev = if DEV
          then [ECall MemMonStopMonitoring (Returns w1);
                ECall PreloaderDestroy (Returns w2);
                ECall ListenerManagerCleanup (Returns w3);
                ECall CodeSplittingCleanup (Returns w4);
                ECall BundlePrintReport (Returns w5)]
          else [].
Proof.
  destruct DEV; simpl; intros Hp; inv_seq.
  - by eexists _, _, _, _, _.
  - by exists VUndefined, VUndefined, VUndefined, VUndefined, VUndefined.
Qed.
End CompleteRuns.

(** ** The claims about the unload handler *)

(** C1 (as the code has it): in every firing of the unload handler in
    which no unguarded call throws, whatever happened on the page before
    (leak detector running or not), the handler, taken as one thread of
    control and run to its end, completes normally and begins its steps
    in source order: the network-service block, stop leak monitoring,
    WebSocket cleanup, store cleanup, the memory-optimizer block and, in a
    development build only, stop the memory monitor, destroy the
    preloader, clean up the event listeners, clean up the code splitting
    manager, print the bundle report.  The sequence the specification
    lists is begun in its order.  What the handler does is then exactly
    this: the banner; the websocket-service import and, when it resolved,
    destroyInstance(), with the failure line when the import was rejected
    or destroyInstance() threw; the three unguarded cleanups, each
    returning; the memory-optimization import and, when it resolved,
    getInstance() and, when that returned, cleanup(), with the failure
    line for whichever of the three failed; and in a development build
    the five dev-only calls, each returning. *)
Theorem unload_steps_follow_source_order {num} (E : env num) (DEV : bool) (st : state) :
  no_unguarded_throw (events_of (unload_handler E DEV) st) →
  (unload_handler E DEV st).1 = Normal tt ∧
  steps_of (events_of (unload_handler E DEV) st) = handler_steps DEV ∧
  declared_sequence_invoked E DEV st ∧
  ∃ imported destroyed v1 v2 v3 imported' instance cleaned w1 w2 w3 w4 w5,
    events_of (unload_handler E DEV) st =
    [EConsoleLog [VString "🧹 应用关闭，执行清理..."];
     EImport WebsocketServiceModule imported] ++
    match imported with
    | Returns _ =>
        ECall WsServiceDestroyInstance destroyed ::
        match destroyed with
        | Returns _ => []
        | Throws e => [EConsoleError [VString "WebSocketService清理失败:"; e]]
        end
    | Throws e => [EConsoleError [VString "WebSocketService清理失败:"; e]]
    end ++
    [ECall LeakStopMonitoring (Returns v1);
     ECall WsCleanerCleanupAll (Returns v2);
     ECall StoreCleanerCleanupAll (Returns v3);
     EImport MemoryOptimizationModule imported'] ++
    match imported' with
    | Returns _ =>
        ECall MemOptGetInstance instance ::
        match instance with
        | Returns _ =>
            ECall MemOptCleanup cleaned ::
            match cleaned with
            | Returns _ => []
            | Throws e => [EConsoleError [VString "内存优化器清理失败:"; e]]
            end
        | Throws e => [EConsoleError [VString "内存优化器清理失败:"; e]]
        end
    | Throws e => [EConsoleError [VString "内存优化器清理失败:"; e]]
    end ++
    if DEV
    then [ECall MemMonStopMonitoring (Returns w1);
          ECall PreloaderDestroy (Returns w2);
          ECall ListenerManagerCleanup (Returns w3);
          ECall CodeSplittingCleanup (Returns w4);
          ECall BundlePrintReport (Returns w5)]
    else [].
Proof.
  unfold declared_sequence_invoked.
  destruct (unload_handler_runs E DEV st) as (r & evs & Hr & Hp).
  apply runs_events in Hr as [Hevs Hres]. rewrite Hevs, Hres. intros Hno.
  pose proof (handler_path_completes _ _ _ Hp Hno) as ->.
  destruct (handler_path_steps _ _ _ Hp) as (remaining & Hs & _ & Hrem).
  rewrite (Hrem eq_refl), app_nil_r in Hs.
  split_and!; [done..| |].
  { rewrite <- Hs. apply declared_steps_sublist. }
  inversion Hp as [|net mid opt r0 dev Hnet Hmid Hopt Hdev]; subst; clear Hp.
  destruct (network_path_outcomes _ Hnet) as (imported & destroyed & ->).
  destruct (plain_cleanup_returned _ Hmid) as (v1 & v2 & v3 & ->).
  destruct (optimizer_path_outcomes _ Hopt) as (imported' & instance & cleaned & ->).
  destruct (dev_cleanup_returned _ _ Hdev) as (w1 & w2 & w3 & w4 & w5 & ->).
  exists imported, destroyed, v1, v2, v3, imported', instance, cleaned, w1, w2, w3, w4, w5.
  unfold unload_banner, network_failure_log, optimizer_failure_log.
  cbn [app]. do 2 f_equal.
Qed.

(** C3: the unguarded calls of the handler have no error isolation.  When
    one of them throws, the handler completes with that throw, the throwing
    call is the last thing it did, and the steps after it are not begun. *)
Theorem unguarded_throw_aborts_handler {num} (E : env num) (DEV : bool) (st : state)
    (c : call) (e : value) :
  guarded c = false →
  ECall c (Throws e) ∈ events_of (unload_handler E DEV) st →
  (unload_handler E DEV st).1 = Thrown e ∧
  (∃ pre, events_of (unload_handler E DEV) st = pre ++ [ECall c (Throws e)]) ∧
  (∃ remaining,
      handler_steps DEV = steps_of (events_of (unload_handler E DEV) st) ++ remaining ∧
      ∀ s, s ∈ remaining → s ∉ steps_of (events_of (unload_handler E DEV) st)).
Proof.
  destruct (unload_handler_runs E DEV st) as (r & evs & Hr & Hp).
  apply runs_events in Hr as [-> <-]. intros Hc Hev.
  destruct (handler_path_unguarded_throw _ _ _ _ _ Hp Hc Hev) as (Hr & Hpre).
  destruct (handler_path_steps _ _ _ Hp) as (remaining & Hs & Hdisj & _).
  split_and!; [done..|]. by exists remaining.
Qed.

(** C2: a failure of a guarded step (the import rejects, or the call
    inside the try block throws) is caught inside that step and logged,
    and the statement after the step runs: after the network-service step
    the leak monitor is stopped, after the memory-optimizer step the
    dev-only calls are made as the build mode says and the handler
    completes as they do.  When no unguarded call throws, every step is
    begun whatever the guarded steps did. *)
Theorem guarded_failures_are_isolated {num} (E : env num) (DEV : bool) (st : state) :
  (∀ ev e,
      ev ∈ events_of (unload_handler E DEV) st → network_failure ev = Some e →
      ∃ pre o post,
        events_of (unload_handler E DEV) st =
        pre ++ [ev; network_failure_log e; ECall LeakStopMonitoring o] ++ post) ∧
  (∀ ev e,
      ev ∈ events_of (unload_handler E DEV) st → optimizer_failure ev = Some e →
      ∃ pre post,
        events_of (unload_handler E DEV) st =
        pre ++ [ev; optimizer_failure_log e] ++ post ∧
        seq_path (dev_cleanup DEV) (unload_handler E DEV st).1 post) ∧
  (no_unguarded_throw (events_of (unload_handler E DEV) st) →
   (unload_handler E DEV st).1 = Normal tt ∧
   steps_of (events_of (unload_handler E DEV) st) = handler_steps DEV).
Proof.
  destruct (unload_handler_runs E DEV st) as (r & evs & Hr & Hp).
  apply runs_events in Hr as [-> <-]. split_and!.
  - intros ev e. apply (handler_path_network_failure _ _ _ _ _ Hp).
  - intros ev e. apply (handler_path_optimizer_failure _ _ _ _ _ Hp).
  - intros Hno. pose proof (handler_path_completes _ _ _ Hp Hno) as Hn.
    destruct (handler_path_steps _ _ _ Hp) as (remaining & Hs & _ & Hrem).
    rewrite (Hrem Hn), app_nil_r in Hs. done.
Qed.

(** C9: the dev-only block of the unload handler also calls
    codeSplittingManager.cleanup(): whenever that call is made the build
    is a development build and the call comes right after
    eventListenerManager.cleanup() returned; bundleAnalyzer.printReport()
    is only ever called right after it returned, as the handler's last
    action; and in a development build in which no unguarded call throws
    the three calls are made, in that order. *)
Theorem code_splitting_cleanup_in_dev_block {num} (E : env num) (DEV : bool) (st : state) :
  (∀ o, ECall CodeSplittingCleanup o ∈ events_of (unload_handler E DEV) st →
        DEV = true ∧
        ∃ pre v post,
          events_of (unload_handler E DEV) st =
          pre ++ [ECall ListenerManagerCleanup (Returns v);
                  ECall CodeSplittingCleanup o] ++ post) ∧
  (∀ o, ECall BundlePrintReport o ∈ events_of (unload_handler E DEV) st →
        ∃ pre v,
          events_of (unload_handler E DEV) st =
          pre ++ [ECall CodeSplittingCleanup (Returns v);
                  ECall BundlePrintReport o]) ∧
  (DEV = true → no_unguarded_throw (events_of (unload_handler E DEV) st) →
   ∃ pre v1 v2 v3,
     events_of (unload_handler E DEV) st =
     pre ++ [ECall ListenerManagerCleanup (Returns v1);
             ECall CodeSplittingCleanup (Returns v2);
             ECall BundlePrintReport (Returns v3)]).
Proof.
  destruct (unload_handler_runs E DEV st) as (r & evs & Hr & Hp).
  apply runs_events in Hr as [-> <-]. split_and!.
  - intros o. apply (handler_path_code_splitting _ _ _ _ Hp).
  - intros o. apply (handler_path_print_report _ _ _ _ Hp).
  - intros -> Hno. eapply handler_path_dev_tail; [done|].
    by apply (handler_path_completes true _ evs).
Qed.

(** ** The module body, statement by statement *)

Section Report.
Context {num : Type} `{Timestamp num}.

Lemma performance_report_runs (E : env num) st :
runs (performance_report E) st (Normal tt) (report_events E).
Proof.
unfold runs, performance_report, report_events.
destruct (head (navigation_entries E)) as [entry|].
- unfold bind, console_log, emit, duration_line. simpl.
  by rewrite <- !app_assoc.
- by rewrite app_nil_r, set_trace_same.
Qed.
End Report.

Section Steps.
Context {num : Type} `{Timestamp num} (E : env num).

Lemma step_assoc {A B C} (m : M A) (k1 : A → M B) (k2 : B → M C) st :
  bind (bind m k1) k2 st = bind m (λ a, bind (k1 a) k2) st.
Proof. unfold bind. by destruct (m st) as [[?|?] ?]. Qed.

Lemma step_ret {A B} (a : A) (k : A → M B) st : bind (ret a) k st = k a st.
Proof. reflexivity. Qed.

Lemma step_invoke {B} c (k : value → M B) st :
  bind (invoke E c) k st =
  match call_result E c (trace st) with
  | Returns v => k v (set_trace (trace st ++ [ECall c (Returns v)]) st)
  | Throws e => (Thrown e, set_trace (trace st ++ [ECall c (Throws e)]) st)
  end.
Proof. unfold bind, invoke. by destruct (call_result _ _ _). Qed.

Lemma step_emit {B} ev (k : unit → M B) st :
  bind (emit ev) k st = k tt (set_trace (trace st ++ [ev]) st).
Proof. reflexivity. Qed.

Lemma step_listener {B} type f (k : unit → M B) st :
  bind (add_event_listener type f) k st =
  k tt (set_listeners (listeners st ++ [(type, f)])
          (set_trace (trace st ++ [EAddEventListener type f]) st)).
Proof. reflexivity. Qed.

Lemma step_alloc {B} fields (k : value → M B) st :
  bind (alloc fields) k st =
  k (VObject (length (heap st))) (set_heap (heap st ++ [fields]) st).
Proof. reflexivity. Qed.

Lemma step_assign {B} name v (k : unit → M B) st :
  bind (window_assign name v) k st =
  match assign_property name v (window st) with
  | Some w => k tt (set_window w (set_trace (trace st ++ [EWindowAssign name]) st))
  | None => (Thrown (VTypeError "Cannot assign to read only property"),
             set_trace (trace st ++ [EWindowAssign name]) st)
  end.
Proof. unfold bind, window_assign. by destruct (assign_property _ _ _). Qed.

Lemma step_define {B} name d (k : unit → M B) st :
  bind (window_define name d) k st =
  match define_property name d (window st) with
  | Some w => k tt (set_window w (set_trace (trace st ++ [EWindowDefine name]) st))
  | None => (Thrown (VTypeError "Cannot redefine property"),
             set_trace (trace st ++ [EWindowDefine name]) st)
  end.
Proof. unfold bind, window_define. by destruct (define_property _ _ _). Qed.

Lemma step_report {B} (k : unit → M B) st :
  bind (performance_report E) k st =
  k tt (set_trace (trace st ++ report_events E) st).
Proof. unfold bind. by rewrite performance_report_runs. Qed.

Lemma step_install {B} f (k : unit → M B) st :
  bind (install_error_handler f) k st = k tt (set_error_handler (Some f) st).
Proof. reflexivity. Qed.

Lemma step_global {B} name v (k : unit → M B) st :
  bind (set_global_property name v) k st =
  k tt (set_global_properties (global_properties st ++ [(name, v)]) st).
Proof. reflexivity. Qed.

Lemma step_catch {B} v f (k : unit → M B) st :
  bind (promise_catch v f) k st =
  match v with
  | VPromise p => k tt (set_reactions (reactions st ++ [(p, f)]) st)
  | _ => (Thrown (VTypeError "catch is not a function"), st)
  end.
Proof. by destruct v. Qed.

End Steps.

Ltac flat :=
  unfold set_trace, set_heap, set_window, set_listeners, set_error_handler,
    set_global_properties, set_reactions;
  cbn [trace heap window listeners error_handler global_properties reactions
       when fst snd].

Ltac exec_step :=
  first
    [ rewrite step_assoc
    | rewrite step_ret
    | rewrite step_emit
    | rewrite step_listener
    | rewrite step_alloc
    | rewrite step_report
    | rewrite step_install
    | rewrite step_global
    | rewrite step_catch; flat;
      match goal with
      | |- context [match ?v with VPromise _ => _ | _ => _ end] => destruct v
      end
    | rewrite step_invoke; flat;
      match goal with
      | |- context [call_result ?E ?c ?t] =>
          destruct (call_result E c t) as [?|?]
      end
    | rewrite step_assign; flat;
      match goal with
      | |- context [assign_property ?n ?v ?w] =>
          destruct (assign_property n v w) as [?|] eqn:?
      end
    | rewrite step_define; flat;
      match goal with
      | |- context [define_property ?n ?v ?w] =>
          destruct (define_property n v w) as [?|] eqn:?
      end ]; flat.

Ltac exec_main :=
  unfold events_of, main, isDev, console_log; flat; repeat exec_step;
  unfold emit, ret; flat;
  rewrite <- ?app_assoc, ?drop_app_length.



Section Frozen.

Lemma apply_descriptor_same p d :
  changes (desc_configurable d) (prop_configurable p) = false →
  changes (desc_enumerable d) (prop_enumerable p) = false →
  changes (desc_writable d) (prop_writable p) = false →
  changes (desc_value d) (prop_value p) = false →
  apply_descriptor p d = p.
Proof.
  destruct p as [v wr en co], d as [[dv|] [dw|] [de|] [dc|]];
    unfold changes, apply_descriptor; simpl; intros;
    repeat match goal with
           | H : negb (bool_decide _) = false |- _ =>
               apply negb_false_iff, bool_decide_eq_true_1 in H; subst
           end; done.
Qed.

(** A non-writable, non-configurable property survives every attempt
    unchanged. *)
Lemma frozen_survives op w name p :
  w !! name = Some p → prop_writable p = false → prop_configurable p = false →
  attempt op w !! name = Some p.
Proof.
  intros Hp Hw Hc. unfold attempt.
  destruct op as [n v|n d|n]; destruct (decide (n = name)) as [->|Hne].
  - unfold assign_property. by rewrite Hp, Hw.
  - unfold assign_property. destruct (w !! n) as [q|]; simpl.
    + destruct (prop_writable q); simpl; [by rewrite lookup_insert_ne|done].
    + by rewrite lookup_insert_ne.
  - unfold define_property, validate_and_apply. rewrite Hp, Hc, Hw.
    destruct (changes (desc_configurable d) false) eqn:H1; [done|].
    destruct (changes (desc_enumerable d) (prop_enumerable p)) eqn:H2; [done|].
    destruct (changes (desc_writable d) false) eqn:H3; [done|].
    destruct (changes (desc_value d) (prop_value p)) eqn:H4; [done|].
    simpl. rewrite lookup_insert_eq. f_equal.
    apply apply_descriptor_same; by rewrite ?Hc, ?Hw.
  - unfold define_property.
    destruct (validate_and_apply _ _); simpl; [by rewrite lookup_insert_ne|done].
  - unfold delete_property. by rewrite Hp, Hc.
  - unfold delete_property. destruct (w !! n) as [q|]; simpl; [|done].
    destruct (prop_configurable q); simpl; [by rewrite lookup_delete_ne|done].
Qed.

Lemma frozen_survives_all ops w name p :
  w !! name = Some p → prop_writable p = false → prop_configurable p = false →
  attempt_all ops w !! name = Some p.
Proof.
  revert w. induction ops as [|op ops IH]; intros w Hp Hw Hc; [done|].
  simpl. apply IH; [|done..]. by apply frozen_survives.
Qed.

(** What the definition on lines 161-165 leaves behind when it is
    accepted. *)
Lemma define_perf_tools w w' name v :
  define_property name (perf_tools_descriptor v) w = Some w' →
  ∃ p, w' !! name = Some p ∧ prop_value p = v ∧
       prop_writable p = false ∧ prop_configurable p = false.
Proof.
  unfold define_property, validate_and_apply, perf_tools_descriptor.
  destruct (w !! name) as [q|]; simpl.
  - destruct (prop_configurable q) eqn:Hc; simpl.
    { intros [= <-]. rewrite lookup_insert_eq. by eexists. }
    destruct (prop_writable q) eqn:Hw; simpl.
    { intros [= <-]. rewrite lookup_insert_eq. by eexists. }
    destruct (bool_decide (v = prop_value q)) eqn:Hv; simpl; [|done].
    intros [= <-]. rewrite lookup_insert_eq. by eexists.
  - intros [= <-]. rewrite lookup_insert_eq. by eexists.
Qed.

Lemma assign_property_value w w' name v :
  assign_property name v w = Some w' →
  ∃ p, w' !! name = Some p ∧ prop_value p = v.
Proof.
  unfold assign_property. destruct (w !! name) as [q|]; simpl.
  - destruct (prop_writable q); [|done].
    intros [= <-]. rewrite lookup_insert_eq. by eexists.
  - intros [= <-]. rewrite lookup_insert_eq. by eexists.
Qed.

Lemma define_property_other w w' name d other :
  define_property name d w = Some w' → other ≠ name → w' !! other = w !! other.
Proof.
  unfold define_property. destruct (validate_and_apply _ _); [|done].
  intros [= <-] Hne. by rewrite lookup_insert_ne.
Qed.
End Frozen.

(** ** The module body in a development build *)

Section DevStartup.
Context {num : Type} `{Timestamp num} (E : env num).

Lemma report_events_logs :
  Forall (λ ev, ∃ args, ev = EConsoleLog args) (report_events E).
Proof.
  unfold report_events. destruct (head _); repeat constructor; by eexists.
Qed.

Lemma report_events_no_call c o : ECall c o ∉ report_events E.
Proof.
  intros Hin. pose proof report_events_logs as Hl.
  rewrite Forall_forall in Hl. by destruct (Hl _ Hin).
Qed.

(** A development startup that runs to its end: what it leaves. *)
Lemma main_dev_completes st :
  (main E true st).1 = Normal tt →
  ∃ w1 w2 p pre,
    assign_property "debugMemory" (VObject (length (heap st))) (window st) = Some w1 ∧
    define_property "__PERF_TOOLS__"
      (perf_tools_descriptor (VObject (length (heap st) + 2)%nat)) w1 = Some w2 ∧
    window (main E true st).2 = w2 ∧
    heap (main E true st).2 =
      heap st ++ [debug_memory_object; tool_references; tool_references] ∧
    reactions (main E true st).2 = reactions st ++ [(p, ConsoleError)] ∧
    error_handler (main E true st).2 = Some ErrorHandler ∧
    events_of (main E true) st =
      pre ++ report_events E ++
      [EWindowDefine "__PERF_TOOLS__";
       EConsoleLog [VString "🔧 性能工具已挂载到 window.__PERF_TOOLS__"]] ∧
    Forall (λ ev, is_perf_tools_definition ev = false) pre.
Proof.
  destruct st as [t h w l eh gp rx]. exec_main; try discriminate.
  intros _.
  match goal with
  | Ha : assign_property _ _ _ = Some ?w1, Hd : define_property _ _ _ = Some ?w2 |- _ =>
      exists w1, w2
  end.
  eexists _, [_; _; _; _; _; _; _; _; _; _; _; _; _; _; _; _; _; _; _].
  split_and!; [done| |done|done|done|done|reflexivity|by repeat constructor].
  match goal with Hd : define_property _ _ _ = _ |- _ => rewrite <- Hd end.
  do 3 f_equal. rewrite !length_app. simpl. lia.
Qed.
End DevStartup.

Section Counting.
Lemma filter_none (f : event → bool) (l : list event) :
  Forall (λ ev, f ev = false) l → filter f l = [].
Proof.
  induction 1 as [|ev l Hev _ IH]; [done|].
  rewrite filter_cons_False; [done|]. rewrite Hev. by intros [].
Qed.
End Counting.

(** ** The claims about startup *)

(** C4: in a development build whose startup runs to its end,
    [window.__PERF_TOOLS__] was defined exactly once, holds the object
    literal with the five tool references, and is neither writable nor
    configurable; whatever assignments, redefinitions or deletions are
    attempted on window afterwards, the property stays as defined, with
    the same object as its value. *)
Theorem perf_tools_defined_once_and_frozen {num} `{Timestamp num}
    (E : env num) (st : state) :
  (main E true st).1 = Normal tt →
  ∃ loc p,
    heap (main E true st).2 !! loc = Some tool_references ∧
    window (main E true st).2 !! "__PERF_TOOLS__" = Some p ∧
    prop_value p = VObject loc ∧
    prop_writable p = false ∧
    prop_configurable p = false ∧
    length (filter is_perf_tools_definition (events_of (main E true) st)) = 1%nat ∧
    ∀ ops, attempt_all ops (window (main E true st).2) !! "__PERF_TOOLS__" = Some p.
Proof.
  intros Hdone.
  destruct (main_dev_completes E st Hdone)
    as (w1 & w2 & q & pre & _ & Hdef & -> & -> & _ & _ & -> & Hpre).
  destruct (define_perf_tools _ _ _ _ Hdef) as (p & Hp & Hv & Hw & Hc).
  exists (length (heap st) + 2)%nat, p. split_and!; [|done..| |].
  - rewrite lookup_app_r by lia.
    by replace (length (heap st) + 2 - length (heap st))%nat with 2%nat by lia.
  - rewrite !filter_app, (filter_none _ pre Hpre), (filter_none _ (report_events E)).
    + reflexivity.
    + eapply Forall_impl; [apply report_events_logs|]. by intros ev [args ->].
  - intros ops. by apply frozen_survives_all.
Qed.

(** C5: in a development build whose startup runs to its end,
    [window.debugMemory] holds an object with exactly the three functions
    checkMemory, getStats and cleanupAll; checkMemory calls the leak
    detector's forceCheck and getStats its getMemoryStats, each returning
    what the call returns; cleanupAll calls the WebSocket cleaner's
    cleanupAll and then the store cleaner's.  A production build does not
    touch window: a debugMemory that was undefined stays undefined. *)
Theorem debug_memory_only_in_dev {num} `{Timestamp num} (E : env num) (st : state) :
  ((main E true st).1 = Normal tt →
   ∃ loc p,
     window (main E true st).2 !! "debugMemory" = Some p ∧
     prop_value p = VObject loc ∧
     heap (main E true st).2 !! loc =
       Some [("checkMemory", VClosure CheckMemory);
             ("getStats", VClosure GetStats);
             ("cleanupAll", VClosure CleanupAll)]) ∧
  (∀ s args,
      runs (call_closure E true CheckMemory args) s
        (completes (call_result E LeakForceCheck (trace s)))
        [ECall LeakForceCheck (call_result E LeakForceCheck (trace s))]) ∧
  (∀ s args,
      runs (call_closure E true GetStats args) s
        (completes (call_result E LeakGetMemoryStats (trace s)))
        [ECall LeakGetMemoryStats (call_result E LeakGetMemoryStats (trace s))]) ∧
  (∀ s args, ∃ r evs,
      runs (call_closure E true CleanupAll args) s r evs ∧
      (r = Normal VUndefined ∨ ∃ e, r = Thrown e) ∧
      seq_path [WsCleanerCleanupAll; StoreCleanerCleanupAll]
        (match r with Normal _ => Normal tt | Thrown e => Thrown e end) evs) ∧
  (window (main E false st).2 = window st ∧
   (window st !! "debugMemory" = None →
    window (main E false st).2 !! "debugMemory" = None)).
Proof.
  assert (Hw : window (main E false st).2 = window st).
  { destruct st as [t h w l eh gp rx]. by exec_main. }
  split_and!.
  - intros Hdone.
    destruct (main_dev_completes E st Hdone)
      as (w1 & w2 & q & pre & Hassign & Hdef & -> & -> & _).
    destruct (assign_property_value _ _ _ _ Hassign) as (p & Hp & Hv).
    exists (length (heap st)), p. split_and!; [|done|].
    + by rewrite (define_property_other _ _ _ _ _ Hdef).
    + rewrite lookup_app_r by done. by rewrite Nat.sub_diag.
  - intros s args. apply runs_invoke.
  - intros s args. apply runs_invoke.
  - intros s args. simpl.
    pose proof (runs_invoke E WsCleanerCleanupAll s) as H1.
    destruct (call_result E WsCleanerCleanupAll (trace s)) as [v1|e1]; simpl in H1.
    + set (s1 := set_trace (trace s ++ [ECall WsCleanerCleanupAll (Returns v1)]) s).
      pose proof (runs_invoke E StoreCleanerCleanupAll s1) as H2.
      destruct (call_result E StoreCleanerCleanupAll (trace s1)) as [v2|e2];
        simpl in H2.
      * exists (Normal VUndefined), ([ECall WsCleanerCleanupAll (Returns v1)] ++
          [ECall StoreCleanerCleanupAll (Returns v2)] ++ []).
        split_and!; [|by left|by repeat constructor].
        eapply runs_bind; [exact H1|]. eapply runs_bind; [exact H2|].
        apply runs_ret.
      * exists (Thrown e2), ([ECall WsCleanerCleanupAll (Returns v1)] ++
          [ECall StoreCleanerCleanupAll (Throws e2)]).
        split_and!; [|right; by eexists|by repeat constructor].
        eapply runs_bind; [exact H1|]. by apply runs_bind_thrown.
    + exists (Thrown e1), [ECall WsCleanerCleanupAll (Throws e1)].
      split_and!; [|right; by eexists|by repeat constructor].
      by apply runs_bind_thrown.
  - exact Hw.
  - by rewrite Hw.
Qed.

Section MountAndReport.
Context {num : Type} `{Timestamp num} (E : env num).

(** In the module body the report is what follows a mount that
    returned. *)
Lemma report_follows_mount DEV st v :
  ECall (AppMount "#app") (Returns v) ∈ events_of (main E DEV) st →
  ∃ pre post,
    events_of (main E DEV) st =
    pre ++ [ECall (AppMount "#app") (Returns v)] ++ report_events E ++ post.
Proof.
  revert v.
  destruct st as [t h w l eh gp rx], DEV; exec_main; simpl; intros v' Hin.
  all: repeat (apply elem_of_cons in Hin as [Hin|Hin]; [try discriminate|]).
  all: try by apply elem_of_nil in Hin.
  all: try (apply elem_of_app in Hin as [Hin|Hin];
            [by apply report_events_no_call in Hin|];
            repeat (apply elem_of_cons in Hin as [Hin|Hin]; [discriminate|]);
            by apply elem_of_nil in Hin).
  all: try by apply report_events_no_call in Hin.
  all: injection Hin as ->.
  all: first
         [ by eexists [_; _; _; _; _; _; _; _; _; _; _; _; _; _; _; _; _; _], _
         | by eexists [_; _; _; _; _; _; _], _
         | eexists [_; _; _; _; _; _; _], []; by rewrite app_nil_r ].
Qed.
End MountAndReport.

(** C6: the performance report.  Without a navigation-timing entry it
    logs nothing, throws nothing and leaves the state as it is.  With one
    it reads the first entry and logs a heading and exactly four lines, the
    DOMContentLoaded, load, DNS lookup and TCP connect durations, each the
    end field minus the start field, and changes nothing but the console
    output.  In the module body the report is what follows a mount that
    returned. *)
Theorem performance_report_logs_four_durations {num} `{Timestamp num}
    (E : env num) (DEV : bool) (st : state) :
  match head (navigation_entries E) with
  | None => performance_report E st = (Normal tt, st)
  | Some entry =>
      performance_report E st =
      (Normal tt,
       set_trace
         (trace st ++
          [EConsoleLog [VString "⚡ 应用性能指标:"];
           duration_line "DOMContentLoaded"
             (domContentLoadedEventEnd entry) (domContentLoadedEventStart entry);
           duration_line "Load Complete" (loadEventEnd entry) (loadEventStart entry);
           duration_line "DNS Lookup" (domainLookupEnd entry) (domainLookupStart entry);
           duration_line "TCP Connect" (connectEnd entry) (connectStart entry)])
         st)
  end ∧
  (∀ v, ECall (AppMount "#app") (Returns v) ∈ events_of (main E DEV) st →
        ∃ pre post,
          events_of (main E DEV) st =
          pre ++ [ECall (AppMount "#app") (Returns v)] ++ report_events E ++ post).
Proof.
  split.
  - pose proof (performance_report_runs E st) as Hr.
    unfold runs, report_events in Hr.
    destruct (head (navigation_entries E)); [done|].
    by rewrite app_nil_r, set_trace_same in Hr.
  - apply report_follows_mount.
Qed.

(** ** What a program can emit *)

Section Emits.
Context {num : Type} `{Timestamp num} (E : env num) (P : event → Prop).

Lemma emits_events {A} (m : M A) st : emits P m → Forall P (events_of m st).
Proof.
  intros Hm. destruct (Hm st) as (evs & Ht & HP).
  unfold events_of. by rewrite Ht, drop_app_length.
Qed.

Lemma emits_silent {A} (m : M A) :
  (∀ st, trace (m st).2 = trace st) → emits P m.
Proof. intros Hm st. exists []. by rewrite app_nil_r, Hm. Qed.

Lemma emits_ret {A} (a : A) : emits P (ret a).
Proof. by apply emits_silent. Qed.

Lemma emits_throw {A} e : emits P (@throw A e).
Proof. by apply emits_silent. Qed.

Lemma emits_emit ev : P ev → emits P (emit ev).
Proof. intros Hev st. exists [ev]. split; [done | by constructor]. Qed.

Lemma emits_bind {A B} (m : M A) (k : A → M B) :
  emits P m → (∀ a, emits P (k a)) → emits P (bind m k).
Proof.
  intros Hm Hk st. unfold bind.
  destruct (Hm st) as (evs1 & Ht1 & HP1).
  destruct (m st) as [[a|e] st1]; simpl in *; [|by eauto].
  destruct (Hk a st1) as (evs2 & Ht2 & HP2).
  exists (evs1 ++ evs2). rewrite Ht2, Ht1, app_assoc.
  split; [done | by apply Forall_app].
Qed.

Lemma emits_try_catch {A} (body : M A) handler :
  emits P body → (∀ e, emits P (handler e)) → emits P (try_catch body handler).
Proof.
  intros Hm Hk st. unfold try_catch.
  destruct (Hm st) as (evs1 & Ht1 & HP1).
  destruct (body st) as [[a|e] st1]; simpl in *; [by eauto|].
  destruct (Hk e st1) as (evs2 & Ht2 & HP2).
  exists (evs1 ++ evs2). rewrite Ht2, Ht1, app_assoc.
  split; [done | by apply Forall_app].
Qed.

Lemma emits_when b body : (b = true → emits P body) → emits P (when b body).
Proof. destruct b; [auto | intros _; apply emits_ret]. Qed.

Lemma emits_invoke c : (∀ o, P (ECall c o)) → emits P (invoke E c).
Proof.
  intros Hc st. exists [ECall c (call_result E c (trace st))].
  split; [|by constructor]. unfold invoke. by destruct (call_result _ _ _).
Qed.

Lemma emits_await_import m : (∀ o, P (EImport m o)) → emits P (await_import E m).
Proof.
  intros Hc st. exists [EImport m (import_result E m (trace st))].
  split; [|by constructor]. unfold await_import. by destruct (import_result _ _ _).
Qed.

Lemma emits_window_assign name v : P (EWindowAssign name) → emits P (window_assign name v).
Proof.
  intros Hc st. exists [EWindowAssign name].
  split; [|by constructor]. unfold window_assign. by destruct (assign_property _ _ _).
Qed.

Lemma emits_window_define name d : P (EWindowDefine name) → emits P (window_define name d).
Proof.
  intros Hc st. exists [EWindowDefine name].
  split; [|by constructor]. unfold window_define. by destruct (define_property _ _ _).
Qed.

Lemma emits_add_event_listener type f :
  P (EAddEventListener type f) → emits P (add_event_listener type f).
Proof. intros Hc st. exists [EAddEventListener type f]. by split; [|constructor]. Qed.

Lemma emits_promise_catch v f : emits P (promise_catch v f).
Proof. apply emits_silent. intros st. by destruct v. Qed.

Lemma emits_performance_report :
  (∀ args, P (EConsoleLog args)) → emits P (performance_report E).
Proof.
  intros Hlog st. exists (report_events E).
  rewrite (performance_report_runs E st). split; [done|].
  eapply Forall_impl; [apply report_events_logs|]. by intros ev [args ->].
Qed.

End Emits.

Ltac emits_steps :=
  repeat first
    [ apply emits_bind; [|intros ?]
    | apply emits_try_catch; [|intros ?]
    | apply emits_ret
    | apply emits_emit
    | apply emits_invoke; intros ?
    | apply emits_await_import; intros ?
    | apply emits_add_event_listener
    | apply emits_window_assign
    | apply emits_window_define
    | apply emits_promise_catch
    | apply emits_performance_report
    | apply emits_silent; reflexivity
    | apply emits_when; intros ? ].

Section EmitsProgram.
Context {num : Type} `{Timestamp num} (E : env num) (P : event → Prop).

(** [P] holds of everything but, possibly, the dev-only monitoring
    calls. *)
Hypothesis P_rest : ∀ ev, dev_monitoring ev = false → P ev.

Lemma emits_unload_handler DEV : emits P (unload_handler E DEV).
Proof.
  unfold unload_handler, console_log, console_error, isDev.
  emits_steps; intros; by apply P_rest.
Qed.

Lemma emits_call_closure DEV f args : emits P (call_closure E DEV f args).
Proof.
  destruct f; simpl.
  - apply emits_bind; [apply emits_unload_handler | intros; apply emits_ret].
  - emits_steps; intros; by apply P_rest.
  - emits_steps; intros; by apply P_rest.
  - emits_steps; intros; by apply P_rest.
  - unfold error_handler_body, console_error. emits_steps; intros; by apply P_rest.
  - unfold console_error. emits_steps; intros; by apply P_rest.
Qed.

Lemma emits_run_callback DEV f args : emits P (run_callback E DEV f args).
Proof.
  unfold run_callback. apply emits_try_catch.
  - apply emits_bind; [apply emits_call_closure | intros; apply emits_ret].
  - intros e. apply emits_emit. by apply P_rest.
Qed.

Lemma emits_run_callbacks DEV fs args : emits P (run_callbacks E DEV fs args).
Proof.
  induction fs as [|f fs IH]; simpl; [apply emits_ret|].
  apply emits_bind; [apply emits_run_callback | done].
Qed.

Lemma emits_settle_promise DEV p o : emits P (settle_promise E DEV p o).
Proof.
  destruct o as [v|reason]; simpl; [apply emits_ret|].
  intros st. destruct (map snd _) as [|f fs] eqn:Hfs.
  - apply emits_emit. by apply P_rest.
  - apply (emits_run_callbacks DEV (f :: fs) [reason] st).
Qed.

Lemma emits_unload_handler_resume DEV waiting :
  emits P (unload_handler_resume E DEV waiting).
Proof.
  destruct waiting; unfold unload_handler_resume, console_error, isDev;
    emits_steps; intros; by apply P_rest.
Qed.

Lemma emits_resume DEV waiting : emits P (resume E DEV waiting).
Proof.
  unfold resume. apply emits_try_catch; [apply emits_unload_handler_resume|].
  intros e. apply emits_bind; [|intros; apply emits_ret].
  apply emits_emit. by apply P_rest.
Qed.

Lemma emits_call_listener DEV f : emits P (call_listener E DEV f).
Proof.
  destruct f; simpl; (apply emits_bind; [|intros; apply emits_ret]);
    try apply emits_run_callback.
  unfold unload_handler_entry, console_log.
  apply emits_bind; [|intros; apply emits_ret].
  apply emits_emit. by apply P_rest.
Qed.

Lemma emits_call_listeners DEV fs : emits P (call_listeners E DEV fs).
Proof.
  induction fs as [|f fs IH]; simpl; [apply emits_ret|].
  apply emits_bind; [apply emits_call_listener | intros started].
  apply emits_bind; [done | intros; apply emits_ret].
Qed.

Lemma emits_fire DEV type : emits P (fire E DEV type).
Proof. intros st. apply (emits_call_listeners DEV _ st). Qed.

Lemma emits_event_loop DEV todo waiting : emits P (event_loop E DEV todo waiting).
Proof.
  revert waiting.
  induction todo as [|[type|i|p o] todo IH]; intros waiting; simpl.
  - apply emits_ret.
  - apply emits_bind; [apply emits_fire | intros; apply IH].
  - destruct (waiting !! i); [|apply IH].
    apply emits_bind; [apply emits_resume | intros; apply IH].
  - apply emits_bind; [apply emits_settle_promise | intros; apply IH].
Qed.

(** The module body of a production build. *)
Lemma emits_main_production : emits P (main E false).
Proof.
  unfold main, isDev, install_error_handler. simpl.
  emits_steps; intros; by apply P_rest.
Qed.
End EmitsProgram.

(** C7: in a production build neither memoryMonitor.startMonitoring nor
    componentPreloader.preloadComponent is ever called: not by the module
    body, not by any listener the page fires afterwards, not by a promise
    reaction, not by any function [main.ts] created (the unload handler
    among them, run in one piece), and not in any history of the page in
    which events are fired, waiting unload handlers go on in any order and
    promises settle. *)
Theorem dev_monitoring_never_runs_in_production {num} `{Timestamp num}
    (E : env num) (st : state) :
  Forall (λ ev, dev_monitoring ev = false) (events_of (main E false) st) ∧
  (∀ type, Forall (λ ev, dev_monitoring ev = false) (events_of (fire E false type) st)) ∧
  (∀ p o, Forall (λ ev, dev_monitoring ev = false)
            (events_of (settle_promise E false p o) st)) ∧
  (∀ f args, Forall (λ ev, dev_monitoring ev = false)
               (events_of (call_closure E false f args) st)) ∧
  (∀ todo waiting, Forall (λ ev, dev_monitoring ev = false)
                     (events_of (event_loop E false todo waiting) st)).
Proof.
  split_and!; intros; apply emits_events.
  - by apply emits_main_production.
  - by apply emits_fire.
  - by apply emits_settle_promise.
  - by apply emits_call_closure.
  - by apply emits_event_loop.
Qed.

Section Startup.
Context {num : Type} `{Timestamp num} (E : env num).

Lemma filter_report_events (f : event → bool) :
  (∀ args, f (EConsoleLog args) = false) → filter f (report_events E) = [].
Proof.
  intros Hf. apply filter_none.
  eapply Forall_impl; [apply report_events_logs|]. by intros ev [args ->].
Qed.

(** The module body starts with a run of unguarded calls that ends with
    the start of the leak monitor; nothing after that run starts it
    again. *)
Lemma main_startup_shape DEV st :
  ∃ r evs1 evs2,
    seq_path (startup_calls ++ [LeakStartMonitoring (leak_interval DEV)]) r evs1 ∧
    events_of (main E DEV) st = evs1 ++ evs2 ∧
    Forall (λ ev, is_leak_start ev = false) evs2.
Proof.
  unfold events_of, main, isDev, leak_interval, startup_calls.
  do 6 (rewrite step_invoke;
        match goal with
        | |- context [call_result E ?c ?t] =>
            destruct (call_result E c t) as [?|?]
        end; cbn [trace set_trace snd];
        [|eexists _, _, []; rewrite app_nil_r; split_and!; [|reflexivity|done];
          rewrite <- ?app_assoc, drop_app_length; simpl;
          by repeat econstructor]).
  match goal with
  | |- context [bind (add_event_listener ?a ?b) ?k ?s] =>
      assert (Hrest : emits (λ ev, is_leak_start ev = false)
                        (bind (add_event_listener a b) k));
      [|destruct (Hrest s) as (evs2 & Ht & HP); rewrite Ht]
  end.
  { unfold install_error_handler, set_global_property, alloc.
    emits_steps; by intros. }
  eexists _, [_; _; _; _; _; _], evs2. split_and!; [| |done]; cycle 1.
  - cbn [trace set_trace]. by rewrite <- ?app_assoc, drop_app_length.
  - by repeat econstructor.
Qed.
End Startup.

Ltac find_event :=
  repeat first [apply list_elem_of_here | apply list_elem_of_further].

(** C8: at startup memoryLeakDetector.startMonitoring is called with
    15000 in a development build and 30000 in a production build, and
    never with anything else or a second time; when none of the calls
    before it throws it is called exactly once. *)
Theorem leak_monitoring_started_once {num} `{Timestamp num}
    (E : env num) (DEV : bool) (st : state) :
  (∀ ms o, ECall (LeakStartMonitoring ms) o ∈ events_of (main E DEV) st →
           ms = leak_interval DEV) ∧
  (length (filter is_leak_start (events_of (main E DEV) st)) ≤ 1)%nat ∧
  ((∀ c e, c ∈ startup_calls → ECall c (Throws e) ∉ events_of (main E DEV) st) →
   ∃ o, filter is_leak_start (events_of (main E DEV) st) =
        [ECall (LeakStartMonitoring (leak_interval DEV)) o]).
Proof.
  destruct (main_startup_shape E DEV st) as (r & evs1 & evs2 & Hp & -> & Hrest).
  rewrite filter_app, (filter_none _ evs2 Hrest), app_nil_r.
  split_and!.
  - intros ms o [Hin|Hin]%elem_of_app.
    + destruct (seq_path_calls _ _ _ Hp _ Hin) as (c & o' & [= <- <-] & Hc).
      unfold startup_calls in Hc. simpl in Hc.
      rewrite !elem_of_cons, elem_of_nil in Hc.
      destruct_or!; by simplify_eq.
    + rewrite Forall_forall in Hrest. by specialize (Hrest _ Hin).
  - unfold startup_calls in Hp. simpl in Hp. inv_seq; simpl; lia.
  - intros Hno. unfold startup_calls in Hp. simpl in Hp.
    inv_seq; first
      [ by eexists
      | exfalso; eapply Hno;
        [|apply elem_of_app; left; find_event]; compute_done ].
Qed.

Section Preload.
Context {num : Type} `{Timestamp num} (E : env num).

(** A rejection reaches the registered [console.error] and nothing
    else. *)
Lemma settle_rejection_logged DEV p reason s :
  reactions s = [(p, ConsoleError)] →
  runs (settle_promise E DEV p (Throws reason)) s (Normal tt)
       [EConsoleError [reason]].
Proof.
  intros Hs. unfold settle_promise, runs. rewrite Hs.
  rewrite filter_cons_True by (simpl; by apply bool_decide_pack).
  reflexivity.
Qed.

(** A development startup in which the preload call returned a
    promise. *)
Lemma main_after_preload st p :
  reactions st = [] →
  ECall (PreloadComponent "HomeView") (Returns (VPromise p))
    ∈ events_of (main E true) st →
  reactions (main E true st).2 = [(p, ConsoleError)] ∧
  (∃ pre o post,
      events_of (main E true) st =
      pre ++ [ECall (PreloadComponent "HomeView") (Returns (VPromise p))] ++
      dev_status_logs ++ [ECall (AppMount "#app") o] ++ post) ∧
  (∀ v, ECall (AppMount "#app") (Returns v) ∈ events_of (main E true) st →
        error_handler (main E true st).2 = Some ErrorHandler).
Proof.
  destruct st as [t h w l eh gp rx]. simpl. intros ->.
  exec_main; simpl; intros Hin.
  all: repeat first
         [ apply elem_of_cons in Hin as [Hin|Hin]; [try discriminate|]
         | apply elem_of_app in Hin as [Hin|Hin];
           [by apply report_events_no_call in Hin|] ];
       try (by apply elem_of_nil in Hin);
       try (by apply report_events_no_call in Hin).
  all: injection Hin as <-.
  all: (split; [done|]); split;
    [ by eexists [_; _; _; _; _; _; _; _; _; _], _, _
    | try done; intros v' Hm; exfalso;
      repeat first
        [ apply elem_of_cons in Hm as [Hm|Hm]; [discriminate|]
        | by apply elem_of_nil in Hm ] ].
Qed.
End Preload.

(** C10: in a development build, when componentPreloader.preloadComponent
    ('HomeView') returned a promise, [console.error] is registered as its
    rejection handler; a later rejection runs that handler, which logs the
    reason, and ends there: nothing is thrown and no unhandled rejection
    is reported.  The startup statements after the preload run whatever
    the promise does: the status lines are logged and the app is mounted,
    and once the mount returned the performance report follows and the
    error handler is installed. *)
Theorem preload_rejection_is_caught {num} `{Timestamp num}
    (E : env num) (st : state) (p : nat) :
  reactions st = [] →
  ECall (PreloadComponent "HomeView") (Returns (VPromise p))
    ∈ events_of (main E true) st →
  (∀ reason s,
      reactions s = reactions (main E true st).2 →
      runs (settle_promise E true p (Throws reason)) s (Normal tt)
           [EConsoleError [reason]]) ∧
  (∃ pre o post,
      events_of (main E true) st =
      pre ++ [ECall (PreloadComponent "HomeView") (Returns (VPromise p))] ++
      dev_status_logs ++ [ECall (AppMount "#app") o] ++ post) ∧
  (∀ v, ECall (AppMount "#app") (Returns v) ∈ events_of (main E true) st →
        error_handler (main E true st).2 = Some ErrorHandler ∧
        ∃ pre post,
          events_of (main E true) st =
          pre ++ [ECall (AppMount "#app") (Returns v)] ++ report_events E ++ post).
Proof.
  intros Hfresh Hin.
  destruct (main_after_preload E st p Hfresh Hin) as (Hrx & Hshape & Hinstalled).
  split_and!; [|done|].
  - intros reason s Hs. apply settle_rejection_logged. by rewrite Hs.
  - intros v Hm. split; [by apply (Hinstalled v)|].
    by apply report_follows_mount.
Qed.

(** * Sample runs *)

Section Checks.

Lemma no_call_throws_sound evs c e :
  no_call_throws evs = true → ECall c (Throws e) ∉ evs.
Proof.
  unfold no_call_throws. rewrite forallb_forall.
  intros Hall Hin%list_elem_of_In. by specialize (Hall _ Hin).
Qed.

Lemma no_unguarded_throw_check evs :
  no_call_throws evs = true → no_unguarded_throw evs.
Proof. intros Hall c e _. by apply no_call_throws_sound. Qed.
End Checks.

(** The unload order on a development page where nothing fails. *)
Lemma unload_steps_follow_source_order_witness :
  (unload_handler calm true (loaded_page calm true)).1 = Normal tt ∧
  steps_of (events_of (unload_handler calm true) (loaded_page calm true)) =
    handler_steps true ∧
  declared_sequence_invoked calm true (loaded_page calm true).
Proof.
  destruct (unload_steps_follow_source_order calm true (loaded_page calm true))
    as (Hdone & Hsteps & Hdeclared & _).
  - apply no_unguarded_throw_check. vm_compute. reflexivity.
  - by split_and!.
Defined.

(** C1 as stated fails: on a production page whose leak detector throws
    from stopMonitoring, the handler begins the network-service step and
    the stop of the leak monitor and nothing after them, so the declared
    sequence is not invoked. *)
Lemma declared_sequence_cut_short :
  steps_of (events_of (unload_handler stop_throws false)
              (loaded_page stop_throws false)) =
    [NetworkServiceStep; StopLeakMonitoring] ∧
  ¬ declared_sequence_invoked stop_throws false (loaded_page stop_throws false).
Proof.
  assert (Hsteps : steps_of (events_of (unload_handler stop_throws false)
                               (loaded_page stop_throws false)) =
                   [NetworkServiceStep; StopLeakMonitoring])
    by (vm_compute; reflexivity).
  split; [exact Hsteps|].
  unfold declared_sequence_invoked. rewrite Hsteps.
  intros Hsub%sublist_length. simpl in Hsub. lia.
Qed.

(** Isolation on a development page where the websocket-service import
    is rejected. *)
Lemma guarded_failures_are_isolated_witness :
  ∃ pre o post,
    events_of (unload_handler import_rejects true) (loaded_page import_rejects true) =
    pre ++ [EImport WebsocketServiceModule (Throws (VString "chunk failed to load"));
            network_failure_log (VString "chunk failed to load");
            ECall LeakStopMonitoring o] ++ post.
Proof.
  apply (proj1 (guarded_failures_are_isolated import_rejects true
                  (loaded_page import_rejects true))).
  - compute_done.
  - reflexivity.
Defined.

(** The abort on a production page whose leak detector throws from
    stopMonitoring. *)
Lemma unguarded_throw_aborts_handler_witness :
  (unload_handler stop_throws false (loaded_page stop_throws false)).1 =
  Thrown (VString "stopMonitoring failed").
Proof.
  apply (unguarded_throw_aborts_handler stop_throws false
           (loaded_page stop_throws false) LeakStopMonitoring
           (VString "stopMonitoring failed")).
  - reflexivity.
  - compute_done.
Defined.

(** The frozen property on a fresh development page where nothing
    fails. *)
Lemma perf_tools_defined_once_and_frozen_witness :
  ∃ loc p,
    heap (main calm true fresh_page).2 !! loc = Some tool_references ∧
    window (main calm true fresh_page).2 !! "__PERF_TOOLS__" = Some p ∧
    prop_value p = VObject loc ∧
    prop_writable p = false ∧
    prop_configurable p = false ∧
    length (filter is_perf_tools_definition (events_of (main calm true) fresh_page))
      = 1%nat ∧
    ∀ ops, attempt_all ops (window (main calm true fresh_page).2) !! "__PERF_TOOLS__"
           = Some p.
Proof.
  apply (perf_tools_defined_once_and_frozen calm fresh_page).
  vm_compute. reflexivity.
Defined.

(** The debug object on a fresh development page where nothing fails. *)
Lemma debug_memory_only_in_dev_witness :
  ∃ loc p,
    window (main calm true fresh_page).2 !! "debugMemory" = Some p ∧
    prop_value p = VObject loc ∧
    heap (main calm true fresh_page).2 !! loc =
      Some [("checkMemory", VClosure CheckMemory);
            ("getStats", VClosure GetStats);
            ("cleanupAll", VClosure CleanupAll)].
Proof.
  apply (proj1 (debug_memory_only_in_dev calm fresh_page)).
  vm_compute. reflexivity.
Defined.

(** The report on a fresh production page: the mount returned. *)
Lemma performance_report_logs_four_durations_witness :
  ∃ pre post,
    events_of (main calm false) fresh_page =
    pre ++ [ECall (AppMount "#app") (Returns VUndefined)] ++ report_events calm ++ post.
Proof.
  apply (proj2 (performance_report_logs_four_durations calm false fresh_page)).
  compute_done.
Defined.

(** The leak monitor on a fresh production page where nothing fails. *)
Lemma leak_monitoring_started_once_witness :
  ∃ o, filter is_leak_start (events_of (main calm false) fresh_page) =
       [ECall (LeakStartMonitoring (leak_interval false)) o].
Proof.
  apply (proj2 (proj2 (leak_monitoring_started_once calm false fresh_page))).
  intros c e _. apply no_call_throws_sound. vm_compute. reflexivity.
Defined.

(** The dev-only block on a development page where nothing fails. *)
Lemma code_splitting_cleanup_in_dev_block_witness :
  ∃ pre v1 v2 v3,
    events_of (unload_handler calm true) (loaded_page calm true) =
    pre ++ [ECall ListenerManagerCleanup (Returns v1);
            ECall CodeSplittingCleanup (Returns v2);
            ECall BundlePrintReport (Returns v3)].
Proof.
  apply (proj2 (proj2 (code_splitting_cleanup_in_dev_block calm true
                         (loaded_page calm true)))).
  - reflexivity.
  - apply no_unguarded_throw_check. vm_compute. reflexivity.
Defined.

(** A fresh development page whose preload promise is rejected after
    startup. *)
Lemma preload_rejection_is_caught_witness :
  runs (settle_promise calm true 0 (Throws (VString "chunk failed to load")))
       (loaded_page calm true) (Normal tt)
       [EConsoleError [VString "chunk failed to load"]].
Proof.
  refine (proj1 (preload_rejection_is_caught calm fresh_page 0 _ _) _ _ _).
  - reflexivity.
  - compute_done.
  - reflexivity.
Defined.
(** * Further properties of the entry point *)

(** ** The error handler *)

(** X1: the error handler of lines 130-140, called with any arguments in
    either build mode, completes normally, calls no collaborator and logs
    exactly three console.error lines: the error, then the info string
    (the third argument), then the component instance (the second); a
    missing argument is logged as undefined.  The production branch adds
    nothing. *)
Theorem error_handler_logs_and_returns {num} `{Timestamp num}
    (E : env num) (DEV : bool) (args : list value) (st : state) :
  runs (call_closure E DEV ErrorHandler args) st (Normal VUndefined)
    [EConsoleError [VString "Vue应用错误:"; nth 0 args VUndefined];
     EConsoleError [VString "错误信息:"; nth 2 args VUndefined];
     EConsoleError [VString "组件实例:"; nth 1 args VUndefined]].
Proof.
  unfold runs, call_closure, error_handler_body, console_error, when, PROD, bind, emit, ret.
  destruct DEV; simpl; by rewrite <- !app_assoc.
Qed.

(** ** The module body: what it leaves in the state *)

Section ModuleBody.
Context {num : Type} `{Timestamp num} (E : env num).

Lemma report_event_is_log ev :
  ev ∈ report_events E → ∃ args, ev = EConsoleLog args.
Proof.
  intros Hin. pose proof (report_events_logs E) as Hl.
  rewrite Forall_forall in Hl. by apply Hl.
Qed.

Ltac case_membership Hin :=
  repeat first
    [ apply elem_of_cons in Hin as [Hin|Hin]; [try discriminate|]
    | apply elem_of_app in Hin as [Hin|Hin];
      [by apply report_event_is_log in Hin as [? ?]|]
    | by apply elem_of_nil in Hin
    | by apply report_event_is_log in Hin as [? ?] ].

(** Every way the module body can run, read off the state it leaves. *)
Lemma main_state_facts DEV st :
  (registration ∈ events_of (main E DEV) st →
   listeners (main E DEV st).2 = listeners st ++ [("beforeunload", UnloadHandler)]) ∧
  (registration ∉ events_of (main E DEV) st →
   listeners (main E DEV st).2 = listeners st) ∧
  ((∃ v, ECall (AppMount "#app") (Returns v) ∈ events_of (main E DEV) st) →
   error_handler (main E DEV st).2 = Some ErrorHandler) ∧
  ((∀ v, ECall (AppMount "#app") (Returns v) ∉ events_of (main E DEV) st) →
   error_handler (main E DEV st).2 = error_handler st) ∧
  (∀ c e, ECall c (Throws e) ∈ events_of (main E DEV) st →
          (main E DEV st).1 = Thrown e ∧
          last (events_of (main E DEV) st) = Some (ECall c (Throws e))).
Proof.
  unfold registration.
  destruct st as [t h w l eh gp rx], DEV; exec_main; simpl.
  all: split_and!;
    [ intros Hin; first [done | exfalso; case_membership Hin]
    | intros Hn; first [done | exfalso; apply Hn; find_event]
    | intros [v' Hin]; first [done | exfalso; case_membership Hin]
    | intros Hn; first [done | exfalso; eapply Hn; find_event]
    | intros c' e' Hin; case_membership Hin; by injection Hin as -> -> ].
Qed.

(** Every way the module body can run, read off its events. *)
Lemma main_order_facts DEV st :
  (∀ sel o, ECall (AppMount sel) o ∈ events_of (main E DEV) st →
     sel = "#app" ∧
     ∃ v1 v2 v3 v4 v5 v6 mid post,
       events_of (main E DEV) st =
       [ECall CreateApp (Returns v1); ECall UsePinia (Returns v2);
        ECall (AppUse "router") (Returns v3); ECall (AppUse "i18n") (Returns v4);
        ECall StoreManagerInitialize (Returns v5);
        ECall (LeakStartMonitoring (leak_interval DEV)) (Returns v6);
        registration] ++ mid ++ [ECall (AppMount "#app") o] ++ post) ∧
  (∀ ms o, ECall (MemMonStartMonitoring ms) o ∈ events_of (main E DEV) st →
     DEV = true ∧ ms = 15000) ∧
  (∀ name o, ECall (PreloadComponent name) o ∈ events_of (main E DEV) st →
     DEV = true ∧ name = "HomeView" ∧
     ∃ pre v post,
       events_of (main E DEV) st =
       pre ++ [ECall (MemMonStartMonitoring 15000) (Returns v);
               ECall (PreloadComponent "HomeView") o] ++ post) ∧
  (∀ c e, ECall c (Throws e) ∈ events_of (main E DEV) st →
     c ≠ AppMount "#app" →
     ∀ sel o, ECall (AppMount sel) o ∉ events_of (main E DEV) st) ∧
  (∀ e, ECall (PreloadComponent "HomeView") (Throws e) ∈ events_of (main E DEV) st →
        reactions (main E DEV st).2 = reactions st).
Proof.
  unfold registration, leak_interval.
  destruct st as [t h w l eh gp rx], DEV; exec_main; simpl.
  all: split_and!;
    [ intros sel o Hin; case_membership Hin; injection Hin as -> ->;
      (split; [done|]);
      first [ by eexists _, _, _, _, _, _, [], _
            | by eexists _, _, _, _, _, _, [_; _; _; _; _; _; _; _; _; _; _], _ ]
    | intros ms o Hin; case_membership Hin; by injection Hin as -> _
    | intros name o Hin; case_membership Hin; injection Hin as -> ->;
      (split; [done|]); (split; [done|]);
      by eexists [_; _; _; _; _; _; _; _; _], _, _
    | intros c' e' Hin Hne sel o Hm; case_membership Hin;
      injection Hin as -> ->; case_membership Hm; congruence
    | intros e' Hin; case_membership Hin; done ].
Qed.

(** A development startup that runs to its end: the two objects with the
    tool references. *)
Lemma main_dev_tool_objects st :
  (main E true st).1 = Normal tt →
  global_properties (main E true st).2 =
    global_properties st ++ [("$performance", VObject (length (heap st) + 1)%nat)].
Proof.
  destruct st as [t h w l eh gp rx]. exec_main; try discriminate.
  intros _. simpl. by rewrite length_app.
Qed.
End ModuleBody.

(** ** The unload handler as the page runs it *)

Section Stretches.
Context {num : Type} (E : env num).

(** The stretches of the handler, cut at their blocks. *)
Lemma resume_first_blocks DEV st :
  unload_handler_resume E DEV AwaitingWebsocketService st =
  (network_block E ;;
   invoke_all E plain_cleanup ;;
   ret (Some AwaitingMemoryOptimization)) st.
Proof.
  unfold unload_handler_resume, network_block, plain_cleanup.
  cbn [invoke_all]. unfold bind; cbn beta iota;
    repeat (match goal with
            | |- context [match ?x with (_, _) => _ end] =>
                destruct x as [[?|?] ?]
            end; simpl; try done).
Qed.

Lemma resume_second_blocks DEV st :
  unload_handler_resume E DEV AwaitingMemoryOptimization st =
  (optimizer_block E ;;
   invoke_all E (dev_cleanup DEV) ;;
   ret None) st.
Proof.
  unfold unload_handler_resume, optimizer_block, isDev, when.
  destruct DEV; cbn [dev_cleanup invoke_all]; unfold bind; cbn beta iota;
    repeat (match goal with
            | |- context [match ?x with (_, _) => _ end] =>
                destruct x as [[?|?] ?]
            end; simpl; try done).
Qed.

(** Lines 41-58, from any state: the network-service block, then the
    unguarded cleanups; the handler waits again unless one of them
    threw. *)
Lemma resume_first_runs DEV st :
  ∃ net r mid,
    network_path net ∧ seq_path plain_cleanup r mid ∧
    runs (network_block E ;; invoke_all E plain_cleanup) st r (net ++ mid) ∧
    runs (resume E DEV AwaitingWebsocketService) st
      (Normal match r with
              | Normal _ => Some AwaitingMemoryOptimization
              | Thrown _ => None
              end)
      (net ++ mid ++ rejection_report r).
Proof.
  destruct (network_block_runs E st) as (net & Hnet & Pnet).
  destruct (invoke_all_runs E plain_cleanup (set_trace (trace st ++ net) st))
    as (r & mid & Hmid & Pmid).
  exists net, r, mid. split_and!; [done..| |].
  - eapply runs_bind; eauto.
  - unfold runs, resume, try_catch in *. rewrite resume_first_blocks.
    unfold bind. rewrite Hnet, Hmid.
    destruct r as [[]|e]; simpl; unfold ret, emit; simpl.
    + by rewrite app_nil_r, app_assoc.
    + by rewrite <- !app_assoc.
Qed.

(** Lines 58-71, from any state: the memory-optimizer block, then the
    dev-only calls; the handler is then finished. *)
Lemma resume_second_runs DEV st :
  ∃ opt r dev,
    optimizer_path opt ∧ seq_path (dev_cleanup DEV) r dev ∧
    runs (optimizer_block E ;; invoke_all E (dev_cleanup DEV)) st r (opt ++ dev) ∧
    runs (resume E DEV AwaitingMemoryOptimization) st (Normal None)
      (opt ++ dev ++ rejection_report r).
Proof.
  destruct (optimizer_block_runs E st) as (opt & Hopt & Popt).
  destruct (invoke_all_runs E (dev_cleanup DEV) (set_trace (trace st ++ opt) st))
    as (r & dev & Hdev & Pdev).
  exists opt, r, dev. split_and!; [done..| |].
  - eapply runs_bind; eauto.
  - unfold runs, resume, try_catch in *. rewrite resume_second_blocks.
    unfold bind. rewrite Hopt, Hdev.
    destruct r as [[]|e]; simpl; unfold ret, emit; simpl.
    + by rewrite app_nil_r, app_assoc.
    + by rewrite <- !app_assoc.
Qed.

(** The dispatch of 'beforeunload' when the unload handler is its only
    listener. *)
Lemma fire_starts_handler DEV s :
  filter (λ l, bool_decide (l.1 = "beforeunload")) (listeners s) =
    [("beforeunload", UnloadHandler)] →
  runs (fire E DEV "beforeunload") s (Normal [AwaitingWebsocketService])
       [unload_banner].
Proof. intros Hs. unfold runs, fire. by rewrite Hs. Qed.

(** A firing whose handler goes on twice with nothing in between is the
    handler run in one piece, with its throw reported. *)
Lemma uninterrupted_firing DEV s :
  filter (λ l, bool_decide (l.1 = "beforeunload")) (listeners s) =
    [("beforeunload", UnloadHandler)] →
  ∃ r evs,
    runs (unload_handler E DEV) s r evs ∧
    runs (event_loop E DEV [Fired "beforeunload"; Resumed 0; Resumed 0] []) s
         (Normal []) (evs ++ rejection_report r).
Proof.
  intros Hs. pose proof (fire_starts_handler DEV s Hs) as Hfire.
  set (s0 := set_trace (trace s ++ [unload_banner]) s) in *.
  destruct (resume_first_runs DEV s0) as (net & r1 & mid & _ & _ & Hb1 & Hr1).
  set (s1 := set_trace (trace s0 ++ net ++ mid) s0) in *.
  destruct (resume_second_runs DEV s1) as (opt & r2 & dev & _ & _ & Hb2 & Hr2).
  destruct r1 as [[]|e].
  - exists r2, ([unload_banner] ++ (net ++ mid) ++ (opt ++ dev)). split.
    + unfold runs. rewrite unload_handler_blocks.
      eapply (runs_bind _ _ s tt); [apply runs_emit|].
      fold s0. unfold runs in *. rewrite <- step_assoc.
      unfold bind at 1. rewrite Hb1. fold s1. rewrite Hb2. f_equal.
      unfold s1, s0. simpl. by rewrite <- !app_assoc.
    + unfold runs in *. cbn [event_loop]. unfold bind at 1. rewrite Hfire.
      fold s0. cbn [app lookup list_lookup]. unfold bind at 1. rewrite Hr1.
      simpl rejection_report. rewrite app_nil_r. fold s1.
      cbn [insert list_insert lookup list_lookup]. unfold bind at 1. rewrite Hr2.
      cbn [delete list_delete event_loop]. unfold ret. f_equal.
      unfold s1, s0. simpl. by rewrite <- !app_assoc.
  - exists (Thrown e), ([unload_banner] ++ (net ++ mid)). split.
    + unfold runs. rewrite unload_handler_blocks.
      eapply (runs_bind _ _ s tt); [apply runs_emit|].
      fold s0. unfold runs in *. rewrite <- step_assoc.
      unfold bind at 1. by rewrite Hb1.
    + unfold runs in *. cbn [event_loop]. unfold bind at 1. rewrite Hfire.
      fold s0. cbn [app lookup list_lookup]. unfold bind at 1. rewrite Hr1.
      cbn [delete list_delete lookup list_lookup event_loop]. unfold ret. f_equal.
      unfold s0. simpl. by rewrite <- !app_assoc.
Qed.
End Stretches.

(** X2: the unload handler is async and every cleanup call sits behind
    its first [await].  On a page whose only 'beforeunload' listener is
    the unload handler, the dispatch of 'beforeunload' logs the banner and
    returns with the handler waiting for the websocket-service import: no
    import has settled and no cleanup call has been made.  When the
    handler goes on, from whatever state the page is in by then, it does
    the network-service block and the three unguarded cleanups and waits
    for the memory-optimization import, unless one of the cleanups threw,
    which ends the handler with an unhandled rejection; when it goes on
    again it does the memory-optimizer block and the dev-only calls and is
    finished.  With nothing in between, the three stretches are the
    handler run in one piece. *)
Theorem unload_handler_runs_in_stretches {num} (E : env num) (DEV : bool) (s : state) :
  filter (λ l, bool_decide (l.1 = "beforeunload")) (listeners s) =
    [("beforeunload", UnloadHandler)] →
  runs (fire E DEV "beforeunload") s (Normal [AwaitingWebsocketService])
       [unload_banner] ∧
  (∀ s1, ∃ net r mid,
      network_path net ∧ seq_path plain_cleanup r mid ∧
      runs (resume E DEV AwaitingWebsocketService) s1
        (Normal match r with
                | Normal _ => Some AwaitingMemoryOptimization
                | Thrown _ => None
                end)
        (net ++ mid ++ rejection_report r)) ∧
  (∀ s2, ∃ opt r dev,
      optimizer_path opt ∧ seq_path (dev_cleanup DEV) r dev ∧
      runs (resume E DEV AwaitingMemoryOptimization) s2 (Normal None)
        (opt ++ dev ++ rejection_report r)) ∧
  runs (event_loop E DEV [Fired "beforeunload"; Resumed 0; Resumed 0] []) s
       (Normal [])
       (events_of (unload_handler E DEV) s ++
        rejection_report (unload_handler E DEV s).1).
Proof.
  intros Honly. split_and!.
  - by apply fire_starts_handler.
  - intros s1.
    destruct (resume_first_runs E DEV s1) as (net & r & mid & ? & ? & _ & ?).
    by exists net, r, mid.
  - intros s2.
    destruct (resume_second_runs E DEV s2) as (opt & r & dev & ? & ? & _ & ?).
    by exists opt, r, dev.
  - destruct (uninterrupted_firing E DEV s Honly) as (r & evs & Hr & Hloop).
    by destruct (runs_events _ _ _ _ Hr) as [-> ->].
Qed.

(** X3: nothing at startup is guarded.  When any call of the module body
    throws, the module body ends with that throw, the call is the last
    thing it did, and unless the throwing call is app.mount itself the
    app is never mounted. *)
Theorem startup_failure_aborts_module {num} `{Timestamp num}
    (E : env num) (DEV : bool) (st : state) (c : call) (e : value) :
  ECall c (Throws e) ∈ events_of (main E DEV) st →
  (main E DEV st).1 = Thrown e ∧
  last (events_of (main E DEV) st) = Some (ECall c (Throws e)) ∧
  (c ≠ AppMount "#app" →
   ∀ sel o, ECall (AppMount sel) o ∉ events_of (main E DEV) st).
Proof.
  intros Hin.
  destruct (main_state_facts E DEV st) as (_ & _ & _ & _ & Hthrow).
  destruct (main_order_facts E DEV st) as (_ & _ & _ & Hmount & _).
  destruct (Hthrow c e Hin) as [Hr Hlast].
  split_and!; [done..|]. intros Hne. by apply (Hmount c e).
Qed.

(** X4: app.mount is only ever called on '#app', and only after
    createApp, usePinia, app.use(router), app.use(i18n),
    storeManager.initialize and memoryLeakDetector.startMonitoring have
    all returned, in that order, and the unload handler has been
    registered. *)
Theorem mount_comes_after_setup {num} `{Timestamp num}
    (E : env num) (DEV : bool) (st : state) (sel : string) (o : outcome) :
  ECall (AppMount sel) o ∈ events_of (main E DEV) st →
  sel = "#app" ∧
  ∃ v1 v2 v3 v4 v5 v6 mid post,
    events_of (main E DEV) st =
    [ECall CreateApp (Returns v1); ECall UsePinia (Returns v2);
     ECall (AppUse "router") (Returns v3); ECall (AppUse "i18n") (Returns v4);
     ECall StoreManagerInitialize (Returns v5);
     ECall (LeakStartMonitoring (leak_interval DEV)) (Returns v6);
     registration] ++ mid ++ [ECall (AppMount "#app") o] ++ post.
Proof.
  destruct (main_order_facts E DEV st) as (Hmount & _). apply Hmount.
Qed.

(** X5: the error handler is installed after the mount, not before it.
    When app.mount returned, app.config.errorHandler is the handler of
    lines 130-140; when it did not return (it threw, or startup ended
    before it) the error handler is whatever it was before the module
    ran. *)
Theorem error_handler_installed_after_mount {num} `{Timestamp num}
    (E : env num) (DEV : bool) (st : state) :
  ((∃ v, ECall (AppMount "#app") (Returns v) ∈ events_of (main E DEV) st) →
   error_handler (main E DEV st).2 = Some ErrorHandler) ∧
  ((∀ v, ECall (AppMount "#app") (Returns v) ∉ events_of (main E DEV) st) →
   error_handler (main E DEV st).2 = error_handler st).
Proof.
  destruct (main_state_facts E DEV st) as (_ & _ & Hyes & Hno & _). by split.
Qed.

(** ** The development globals *)

(** X7: after a development startup that runs to its end,
    app.config.globalProperties.$performance and window.__PERF_TOOLS__
    hold two different objects, each with the same five tool references:
    a change to the fields of one is not seen through the other. *)
Theorem performance_globals_are_two_objects {num} `{Timestamp num}
    (E : env num) (st : state) :
  (main E true st).1 = Normal tt →
  ∃ a b p,
    a ≠ b ∧
    global_properties (main E true st).2 =
      global_properties st ++ [("$performance", VObject a)] ∧
    window (main E true st).2 !! "__PERF_TOOLS__" = Some p ∧
    prop_value p = VObject b ∧
    heap (main E true st).2 !! a = Some tool_references ∧
    heap (main E true st).2 !! b = Some tool_references.
Proof.
  intros Hdone.
  destruct (main_dev_completes E st Hdone)
    as (w1 & w2 & q & pre & _ & Hdef & Hw & Hh & _).
  destruct (define_perf_tools _ _ _ _ Hdef) as (p & Hp & Hv & _).
  exists (length (heap st) + 1)%nat, (length (heap st) + 2)%nat, p.
  rewrite Hw, Hh. split_and!; [lia| |done|done| |].
  - by apply main_dev_tool_objects.
  - rewrite lookup_app_r by lia.
    by replace (length (heap st) + 1 - length (heap st))%nat with 1%nat by lia.
  - rewrite lookup_app_r by lia.
    by replace (length (heap st) + 2 - length (heap st))%nat with 2%nat by lia.
Qed.

Section DebugGlobals.
Context {num : Type} `{Timestamp num} (E : env num).

Lemma assign_fresh name v (w w' : gmap string property) :
  w !! name = None → assign_property name v w = Some w' →
  w' = <[name := plain_property v]> w.
Proof. unfold assign_property. intros ->. by intros [= <-]. Qed.

Lemma define_fresh name d (w w' : gmap string property) :
  w !! name = None → define_property name d w = Some w' →
  w' = <[name := {| prop_value := default VUndefined (desc_value d);
                    prop_writable := default false (desc_writable d);
                    prop_enumerable := default false (desc_enumerable d);
                    prop_configurable := default false (desc_configurable d) |}]> w.
Proof. unfold define_property, validate_and_apply. intros ->. by intros [= <-]. Qed.

(** A second definition of a frozen property with another value is
    refused. *)
Lemma define_perf_tools_twice name v v' (w : gmap string property) p :
  w !! name = Some p → prop_value p = v →
  prop_writable p = false → prop_configurable p = false →
  v' ≠ v →
  define_property name (perf_tools_descriptor v') w = None.
Proof.
  intros Hp Hv Hw Hc Hne.
  unfold define_property, validate_and_apply, perf_tools_descriptor.
  rewrite Hp, Hc, Hw. simpl. rewrite Hv.
  by rewrite bool_decide_eq_false_2.
Qed.
End DebugGlobals.

(** X13: on a page where neither property existed, a development startup
    that runs to its end leaves window.debugMemory as an ordinary
    property (writable, enumerable, configurable), so that a later
    assignment replaces it and a delete removes it, while
    window.__PERF_TOOLS__ is not enumerable. *)
Theorem debug_memory_is_replaceable {num} `{Timestamp num}
    (E : env num) (st : state) :
  window st !! "debugMemory" = None →
  window st !! "__PERF_TOOLS__" = None →
  (main E true st).1 = Normal tt →
  window (main E true st).2 !! "debugMemory" =
    Some (plain_property (VObject (length (heap st)))) ∧
  (∀ v, attempt (Assign "debugMemory" v) (window (main E true st).2) !! "debugMemory" =
        Some (plain_property v)) ∧
  attempt (Delete "debugMemory") (window (main E true st).2) !! "debugMemory" = None ∧
  (∃ p, window (main E true st).2 !! "__PERF_TOOLS__" = Some p ∧
        prop_enumerable p = false).
Proof.
  intros Hd Hp Hdone.
  destruct (main_dev_completes E st Hdone)
    as (w1 & w2 & q & pre & Hassign & Hdef & -> & _).
  apply (assign_fresh _ _ _ _ Hd) in Hassign as ->.
  apply define_fresh in Hdef as ->; [|by rewrite lookup_insert_ne].
  split_and!.
  - rewrite lookup_insert_ne by done. apply lookup_insert_eq.
  - intros v. unfold attempt, assign_property.
    rewrite lookup_insert_ne, lookup_insert_eq by done. simpl.
    by rewrite lookup_insert_eq.
  - unfold attempt, delete_property.
    rewrite lookup_insert_ne, lookup_insert_eq by done. simpl.
    by rewrite lookup_delete_eq.
  - eexists. by rewrite lookup_insert_eq.
Qed.

(** X14: in a development build the module body cannot run to its end
    twice on the same page: the second run meets the frozen
    __PERF_TOOLS__ of the first with a new object, and the definition is
    refused. *)
Theorem development_startup_runs_once {num} `{Timestamp num}
    (E E' : env num) (st : state) :
  (main E true st).1 = Normal tt →
  (main E' true (main E true st).2).1 ≠ Normal tt.
Proof.
  intros Hfirst Hsecond.
  destruct (main_dev_completes E st Hfirst)
    as (w1 & w2 & q & pre & _ & Hdef & Hw & Hh & _).
  destruct (define_perf_tools _ _ _ _ Hdef) as (p & Hp & Hv & Hwr & Hc).
  destruct (main_dev_completes E' _ Hsecond)
    as (w1' & w2' & q' & pre' & Hassign' & Hdef' & _).
  rewrite Hw in Hassign'. rewrite Hh in Hdef'.
  assert (Hp' : w1' !! "__PERF_TOOLS__" = Some p).
  { pose proof (frozen_survives (Assign "debugMemory" (VObject (length (main E true st).2.(heap))))
                  w2 "__PERF_TOOLS__" p Hp Hwr Hc) as Hs.
    unfold attempt in Hs. by rewrite Hassign' in Hs. }
  rewrite (define_perf_tools_twice _ _ _ _ _ Hp' Hv Hwr Hc) in Hdef'; [done|].
  rewrite length_app. simpl. intros [= Heq]. lia.
Qed.

(** ** Console output and dev-only calls *)

Section Quiet.
Context {num : Type} `{Timestamp num} (E : env num).

Lemma emits_report_lines (P : event → Prop) :
  (∀ ev, ev ∈ report_events E → P ev) → emits P (performance_report E).
Proof.
  intros HP st. exists (report_events E).
  rewrite (performance_report_runs E st). split; [done|].
  by apply Forall_forall.
Qed.

(** The module body never writes to console.error. *)
Lemma main_no_console_error DEV :
  emits (λ ev, is_console_error ev = false) (main E DEV).
Proof.
  unfold main, isDev, console_log, install_error_handler, set_global_property, alloc.
  emits_steps; by intros.
Qed.

(** The production module body never makes a dev-only cleanup call. *)
Lemma main_production_no_dev_cleanup :
  emits (λ ev, dev_cleanup_call ev = false) (main E false).
Proof.
  unfold main, isDev, console_log, install_error_handler. simpl.
  emits_steps; by intros.
Qed.

Lemma handler_production_no_dev_cleanup :
  emits (λ ev, dev_cleanup_call ev = false) (unload_handler E false).
Proof.
  unfold unload_handler, isDev, console_log, console_error. simpl.
  emits_steps; by intros.
Qed.

Lemma seq_path_filters cs r evs :
  seq_path cs r evs → Forall (λ c, guarded c = false) cs →
  filter is_console_error evs = [] ∧ filter is_guarded_failure evs = [].
Proof.
  intros Hp Hcs. split; apply filter_none, Forall_forall; intros ev Hev.
  - by destruct (seq_path_calls _ _ _ Hp _ Hev) as (c & o & -> & _).
  - destruct (seq_path_no_failures _ _ _ Hp Hcs _ Hev) as [Hn Ho].
    unfold is_guarded_failure. by rewrite Hn, Ho.
Qed.

Lemma handler_path_console DEV r evs :
  handler_path DEV r evs →
  head evs = Some unload_banner ∧
  length (filter is_console_error evs) = length (filter is_guarded_failure evs) ∧
  (length (filter is_console_error evs) ≤ 2)%nat.
Proof.
  intros Hp.
  inversion Hp as [net mid e0 Hnet Hmid|net mid opt r0 dev Hnet Hmid Hopt Hdev];
    subst; clear Hp; (split; [done|]).
  - change (unload_banner :: net ++ mid) with ([unload_banner] ++ net ++ mid).
    rewrite !filter_app.
    destruct (seq_path_filters _ _ _ Hmid plain_cleanup_unguarded) as [-> ->].
    rewrite !app_nil_r.
    destruct Hnet; simpl; split; (reflexivity || lia).
  - change (unload_banner :: net ++ mid ++ opt ++ dev)
      with ([unload_banner] ++ net ++ mid ++ opt ++ dev).
    rewrite !filter_app.
    destruct (seq_path_filters _ _ _ Hmid plain_cleanup_unguarded) as [-> ->].
    destruct (seq_path_filters _ _ _ Hdev (dev_cleanup_unguarded DEV)) as [-> ->].
    rewrite !app_nil_r.
    destruct Hnet, Hopt; simpl; split; (reflexivity || lia).
Qed.
End Quiet.

(** X10: the unload handler's console output.  The cleanup banner is the
    first thing every firing does; the handler writes one console.error
    line for each guarded step that failed and no other, so never more
    than two. *)
Theorem unload_handler_console_output {num} (E : env num) (DEV : bool) (st : state) :
  head (events_of (unload_handler E DEV) st) = Some unload_banner ∧
  length (filter is_console_error (events_of (unload_handler E DEV) st)) =
    length (filter is_guarded_failure (events_of (unload_handler E DEV) st)) ∧
  (length (filter is_console_error (events_of (unload_handler E DEV) st)) ≤ 2)%nat.
Proof.
  destruct (unload_handler_runs E DEV st) as (r & evs & Hr & Hp).
  apply runs_events in Hr as [-> _]. by apply (handler_path_console DEV r).
Qed.

(** X11: in a production build none of the five dev-only cleanup calls
    (memoryMonitor.stopMonitoring, componentPreloader.destroy,
    eventListenerManager.cleanup, codeSplittingManager.cleanup,
    bundleAnalyzer.printReport) is ever made, neither by the unload
    handler, whatever fails in it, nor by the module body. *)
Theorem dev_cleanup_never_runs_in_production {num} `{Timestamp num}
    (E : env num) (st : state) :
  Forall (λ ev, dev_cleanup_call ev = false) (events_of (unload_handler E false) st) ∧
  Forall (λ ev, dev_cleanup_call ev = false) (events_of (main E false) st).
Proof.
  split; apply emits_events.
  - apply handler_production_no_dev_cleanup.
  - apply main_production_no_dev_cleanup.
Qed.


(** X8: a synchronous throw of componentPreloader.preloadComponent is not
    handled by the .catch on its result: no console.error is written, no
    reaction is registered, the module body ends with that throw and the
    app is never mounted. *)
Theorem synchronous_preload_throw_is_not_caught {num} `{Timestamp num}
    (E : env num) (DEV : bool) (st : state) (e : value) :
  ECall (PreloadComponent "HomeView") (Throws e) ∈ events_of (main E DEV) st →
  (main E DEV st).1 = Thrown e ∧
  (∀ sel o, ECall (AppMount sel) o ∉ events_of (main E DEV) st) ∧
  Forall (λ ev, is_console_error ev = false) (events_of (main E DEV) st) ∧
  reactions (main E DEV st).2 = reactions st.
Proof.
  intros Hin.
  destruct (main_state_facts E DEV st) as (_ & _ & _ & _ & Hthrow).
  destruct (main_order_facts E DEV st) as (_ & _ & _ & Hmount & Hrx).
  split_and!.
  - by apply (Hthrow _ _ Hin).
  - by apply (Hmount _ _ Hin).
  - apply emits_events, main_no_console_error.
  - by apply (Hrx e).
Qed.

(** X12: the dev-only monitoring of lines 92-95.  memoryMonitor
    .startMonitoring is only ever called in a development build and with
    15000; componentPreloader.preloadComponent is only ever called in a
    development build, on 'HomeView', and right after
    memoryMonitor.startMonitoring returned. *)
Theorem dev_monitoring_calls {num} `{Timestamp num}
    (E : env num) (DEV : bool) (st : state) :
  (∀ ms o, ECall (MemMonStartMonitoring ms) o ∈ events_of (main E DEV) st →
     DEV = true ∧ ms = 15000) ∧
  (∀ name o, ECall (PreloadComponent name) o ∈ events_of (main E DEV) st →
     DEV = true ∧ name = "HomeView" ∧
     ∃ pre v post,
       events_of (main E DEV) st =
       pre ++ [ECall (MemMonStartMonitoring 15000) (Returns v);
               ECall (PreloadComponent "HomeView") o] ++ post).
Proof.
  destruct (main_order_facts E DEV st) as (_ & Hmon & Hpre & _). by split.
Qed.

(** * Further sample runs *)

(** The dispatch of 'beforeunload' on a development page where nothing
    fails. *)
Lemma unload_handler_runs_in_stretches_witness :
  runs (fire calm true "beforeunload") (loaded_page calm true)
       (Normal [AwaitingWebsocketService]) [unload_banner].
Proof.
  refine (proj1 (unload_handler_runs_in_stretches calm true
                   (loaded_page calm true) _)).
  vm_compute. reflexivity.
Defined.

(** Two firings on a production page where nothing fails: both handlers
    wait for their first import, and the second handler does its first
    stretch between the two stretches of the first. *)
Lemma two_firings_interleave :
  steps_of (events_of
              (event_loop calm false
                 [Fired "beforeunload"; Fired "beforeunload";
                  Resumed 0; Resumed 1; Resumed 0; Resumed 0] [])
              (loaded_page calm false)) =
  [NetworkServiceStep; StopLeakMonitoring; CleanWebSockets; CleanStores;
   NetworkServiceStep; StopLeakMonitoring; CleanWebSockets; CleanStores;
   MemoryOptimizerStep; MemoryOptimizerStep].
Proof. vm_compute. reflexivity. Qed.

(** A development startup whose preloader throws. *)
Lemma startup_failure_aborts_module_witness :
  (main preload_throws true fresh_page).1 = Thrown (VString "preloader not ready") ∧
  last (events_of (main preload_throws true) fresh_page) =
    Some (ECall (PreloadComponent "HomeView") (Throws (VString "preloader not ready"))) ∧
  (PreloadComponent "HomeView" ≠ AppMount "#app" →
   ∀ sel o, ECall (AppMount sel) o ∉ events_of (main preload_throws true) fresh_page).
Proof.
  apply (startup_failure_aborts_module preload_throws true fresh_page).
  compute_done.
Defined.

(** The mount of a production startup where nothing fails. *)
Lemma mount_comes_after_setup_witness :
  "#app" = "#app" ∧
  ∃ v1 v2 v3 v4 v5 v6 mid post,
    events_of (main calm false) fresh_page =
    [ECall CreateApp (Returns v1); ECall UsePinia (Returns v2);
     ECall (AppUse "router") (Returns v3); ECall (AppUse "i18n") (Returns v4);
     ECall StoreManagerInitialize (Returns v5);
     ECall (LeakStartMonitoring (leak_interval false)) (Returns v6);
     registration] ++ mid ++ [ECall (AppMount "#app") (Returns VUndefined)] ++ post.
Proof.
  apply (mount_comes_after_setup calm false fresh_page "#app" (Returns VUndefined)).
  compute_done.
Defined.

(** The two tool objects of a development startup where nothing fails. *)
Lemma performance_globals_are_two_objects_witness :
  ∃ a b p,
    a ≠ b ∧
    global_properties (main calm true fresh_page).2 =
      global_properties fresh_page ++ [("$performance", VObject a)] ∧
    window (main calm true fresh_page).2 !! "__PERF_TOOLS__" = Some p ∧
    prop_value p = VObject b ∧
    heap (main calm true fresh_page).2 !! a = Some tool_references ∧
    heap (main calm true fresh_page).2 !! b = Some tool_references.
Proof.
  apply (performance_globals_are_two_objects calm fresh_page).
  vm_compute. reflexivity.
Defined.

(** A development startup whose preloader throws: nothing is caught. *)
Lemma synchronous_preload_throw_is_not_caught_witness :
  (main preload_throws true fresh_page).1 = Thrown (VString "preloader not ready") ∧
  (∀ sel o, ECall (AppMount sel) o ∉ events_of (main preload_throws true) fresh_page) ∧
  Forall (λ ev, is_console_error ev = false)
         (events_of (main preload_throws true) fresh_page) ∧
  reactions (main preload_throws true fresh_page).2 = reactions fresh_page.
Proof.
  apply (synchronous_preload_throw_is_not_caught preload_throws true fresh_page).
  compute_done.
Defined.

(** The debug property of a fresh development page where nothing fails. *)
Lemma debug_memory_is_replaceable_witness :
  window (main calm true fresh_page).2 !! "debugMemory" =
    Some (plain_property (VObject (length (heap fresh_page)))) ∧
  (∀ v, attempt (Assign "debugMemory" v) (window (main calm true fresh_page).2)
          !! "debugMemory" = Some (plain_property v)) ∧
  attempt (Delete "debugMemory") (window (main calm true fresh_page).2)
    !! "debugMemory" = None ∧
  (∃ p, window (main calm true fresh_page).2 !! "__PERF_TOOLS__" = Some p ∧
        prop_enumerable p = false).
Proof.
  apply (debug_memory_is_replaceable calm fresh_page).
  - reflexivity.
  - reflexivity.
  - vm_compute. reflexivity.
Defined.

(** A second development startup on the page of the first. *)
Lemma development_startup_runs_once_witness :
  (main calm true (main calm true fresh_page).2).1 ≠ Normal tt.
Proof.
  apply (development_startup_runs_once calm calm fresh_page).
  vm_compute. reflexivity.
Defined.
